(** * Pixel Art Maker (pixel-art/src/App.tsx): model and properties

    A shallow embedding of the state and the event handlers of the [App]
    component: the sparse pixel store (a JavaScript [Map] from
    coordinate keys to colours), the recent-colour list, the drawing
    handlers, and the two exporters.

    Modelling conventions.
    - Grid coordinates are [nat].  The embedding of number formatting and
      parsing coincides with JavaScript on the integers the grid produces
      (non-negative, far below 2^53).
    - A JavaScript [Map<string,string>] is an association list in insertion
      order with pairwise distinct keys: [Map.prototype.forEach] visits the
      entries in that order, [set] on a present key keeps its position.
    - The host event loop serialises events.  [step] and [run] handle each
      event against the state left by the previous one (a re-render between
      events); [stepIn] and [batch] handle several events within one render,
      where handlers read the state of that render. *)

From Stdlib Require Import Ascii String DecimalString DecimalNat.
From stdpp Require Import gmap strings list fin_maps.

(** ** JavaScript numbers, as far as the component uses them *)

(** The result of [Number(s)] and of the arithmetic on it: a natural number,
    or [NaN]. *)
Inductive num : Type :=
  | NaN
  | Num (n : nat).

#[global] Instance num_eq_dec : EqDecision num.
Proof. solve_decision. Defined.

(** [`${n}`] for a non-negative integer: its decimal digits. *)
Definition nat_to_string (n : nat) : string :=
  NilEmpty.string_of_uint (Nat.to_uint n).

(** [`${v}`] for a number that may be [NaN]. *)
Definition num_to_string (v : num) : string :=
  match v with
  | NaN => "NaN"
  | Num n => nat_to_string n
  end.

(** [v * 10]. *)
Definition times10 (v : num) : num :=
  match v with
  | NaN => NaN
  | Num n => Num (n * 10)
  end.

(** [Number(s)] on the strings that occur as parts of a key: the empty
    string is [0], a string of decimal digits is its value.  Every other string
    is collapsed to [NaN]; none of them is produced by [getPixelKey]. *)
Definition Number (s : string) : num :=
  match NilEmpty.uint_of_string s with
  | Some d => Num (Nat.of_uint d)
  | None => NaN
  end.

(** [s.split(sep)] for a one-character separator. *)
Fixpoint split (sep : ascii) (s : string) : list string :=
  match s with
  | EmptyString => [EmptyString]
  | String c s' =>
      if decide (c = sep) then EmptyString :: split sep s'
      else match split sep s' with
           | [] => [String c EmptyString]
           | p :: ps => String c p :: ps
           end
  end.

(** The array destructuring [const [x, y] = parts]: a missing element is
    [undefined], which every later use turns into [NaN]. *)
Definition destructure2 (parts : list num) : num * num :=
  (default NaN (parts !! 0), default NaN (parts !! 1)).

(** [key.split('-').map(Number)] followed by the destructuring. *)
Definition parseKey (key : string) : num * num :=
  destructure2 (Number <$> split "-"%char key).

(** ** The pixel store: [Map<string, string>] *)

Module JSMap.

Definition t : Type := list (string * string).

Definition empty : t := [].

(** [m.get(k)] *)
Fixpoint get (k : string) (m : t) : option string :=
  match m with
  | [] => None
  | (k', v') :: m' => if decide (k' = k) then Some v' else get k m'
  end.

(** [m.set(k, v)]: overwrite in place, or append a new entry. *)
Fixpoint set (k v : string) (m : t) : t :=
  match m with
  | [] => [(k, v)]
  | (k', v') :: m' =>
      if decide (k' = k) then (k, v) :: m' else (k', v') :: set k v m'
  end.

(** [m.delete(k)] *)
Fixpoint delete (k : string) (m : t) : t :=
  match m with
  | [] => []
  | (k', v') :: m' =>
      if decide (k' = k) then delete k m' else (k', v') :: delete k m'
  end.

(** [m.forEach((value, key) => ...)], threading the variables the callback
    updates. *)
Definition forEach {A : Type} (f : A → string → string → A) (m : t) (a : A) : A :=
  fold_left (λ acc kv, f acc kv.2 kv.1) m a.

(** [m.size] *)
Definition size (m : t) : nat := length m.

(** Representation invariant: keys are pairwise distinct. *)
Definition wf (m : t) : Prop := NoDup (m.*1).

(** The store read as a finite mapping, forgetting insertion order. *)
Definition to_gmap (m : t) : gmap string string := list_to_map m.

End JSMap.

(** ** Component state *)

Record GridSize : Type := mkGridSize { width : nat; height : nat }.

Record State : Type := mkState {
  gridSize : GridSize;
  selectedColor : string;
  pixels : JSMap.t;
  isDrawing : bool;
  isMobile : bool;
  recentColors : list string
}.

(** The [useState] initial values, for a given geometry. *)
Definition initialState (g : GridSize) : State :=
  {| gridSize := g;
     selectedColor := "#3b82f6";
     pixels := JSMap.empty;
     isDrawing := false;
     isMobile := false;
     recentColors := ["#3b82f6"] |}.

Definition init : State := initialState (mkGridSize 16 16).

Definition setGridSize (g : GridSize) (s : State) : State :=
  mkState g (selectedColor s) (pixels s) (isDrawing s) (isMobile s) (recentColors s).
Definition setSelectedColor (c : string) (s : State) : State :=
  mkState (gridSize s) c (pixels s) (isDrawing s) (isMobile s) (recentColors s).
Definition setPixels (m : JSMap.t) (s : State) : State :=
  mkState (gridSize s) (selectedColor s) m (isDrawing s) (isMobile s) (recentColors s).
Definition setIsDrawing (b : bool) (s : State) : State :=
  mkState (gridSize s) (selectedColor s) (pixels s) b (isMobile s) (recentColors s).
Definition setIsMobile (b : bool) (s : State) : State :=
  mkState (gridSize s) (selectedColor s) (pixels s) (isDrawing s) b (recentColors s).
Definition setRecentColors (f : list string → list string) (s : State) : State :=
  mkState (gridSize s) (selectedColor s) (pixels s) (isDrawing s) (isMobile s)
          (f (recentColors s)).

(** ** Handlers *)

Definition checkMobile (innerWidth : nat) (s : State) : State :=
  let s := setIsMobile (bool_decide (innerWidth < 768)) s in
  if bool_decide (innerWidth < 768)
  then setGridSize (mkGridSize 16 16) s
  else setGridSize (mkGridSize 32 32) s.

Definition getPixelKey (x y : nat) : string :=
  nat_to_string x +:+ "-" +:+ nat_to_string y.

(** The updater passed to [setRecentColors] by [addToRecentColors]. *)
Definition recentUpdate (color : string) (prev : list string) : list string :=
  let filtered := filter (λ c, c ≠ color) prev in
  let newRecent := color :: filtered in
  take 10 newRecent.

Definition addToRecentColors (color : string) (s : State) : State :=
  setRecentColors (recentUpdate color) s.

Definition handleColorChange (color : string) (s : State) : State :=
  addToRecentColors color (setSelectedColor color s).

Definition handlePixelClick (x y : nat) (shiftKey : bool) (s : State) : State :=
  let pixelKey := getPixelKey x y in
  let newPixels := pixels s in
  if shiftKey then
    setPixels (JSMap.delete pixelKey newPixels) s
  else
    let newPixels := JSMap.set pixelKey (selectedColor s) newPixels in
    setPixels newPixels (addToRecentColors (selectedColor s) s).

Definition handleTouchClick (x y : nat) (touches : nat) (s : State) : State :=
  let pixelKey := getPixelKey x y in
  let newPixels := pixels s in
  if bool_decide (1 < touches) then
    setPixels (JSMap.delete pixelKey newPixels) s
  else
    let newPixels := JSMap.set pixelKey (selectedColor s) newPixels in
    setPixels newPixels (addToRecentColors (selectedColor s) s).

Definition handleMouseDown (s : State) : State := setIsDrawing true s.

Definition handleMouseUp (s : State) : State := setIsDrawing false s.

Definition handlePixelMouseEnter (x y : nat) (s : State) : State :=
  if isDrawing s then
    let pixelKey := getPixelKey x y in
    let newPixels := JSMap.set pixelKey (selectedColor s) (pixels s) in
    addToRecentColors (selectedColor s) (setPixels newPixels s)
  else s.

(** The touch event [e] is only used for [preventDefault]; its contact list is
    not read. *)
Definition handleTouchMove (touches : nat) (x y : nat) (s : State) : State :=
  if isDrawing s then
    let pixelKey := getPixelKey x y in
    let newPixels := JSMap.set pixelKey (selectedColor s) (pixels s) in
    addToRecentColors (selectedColor s) (setPixels newPixels s)
  else s.

Definition clearCanvas (s : State) : State := setPixels JSMap.empty s.

(** The [onClick] of the i-th recent-colour button. *)
Definition swatchClick (i : nat) (s : State) : State :=
  match recentColors s !! i with
  | Some color => setSelectedColor color s
  | None => s
  end.

(** ** Exporters *)

(** The double-quote character of the template literals. *)
Definition dq : string := String "034"%char EmptyString.

(** What is handed to the download link: content, [link.download] and the
    blob type. *)
Record Download (A : Type) : Type := mkDownload {
  payload : A;
  filename : string;
  mimeType : string
}.
Arguments mkDownload {A} _ _ _.
Arguments payload {A} _.
Arguments filename {A} _.
Arguments mimeType {A} _.

(** *** Vector export *)

Definition svgOpen (svgWidth svgHeight : nat) : string :=
  "<svg width=" +:+ dq +:+ nat_to_string svgWidth +:+ dq +:+
  " height=" +:+ dq +:+ nat_to_string svgHeight +:+ dq +:+
  " xmlns=" +:+ dq +:+ "http://www.w3.org/2000/svg" +:+ dq +:+ ">".

(** The text appended by one call of the [forEach] callback. *)
Definition svgRect (color key : string) : string :=
  let '(x, y) := parseKey key in
  "<rect x=" +:+ dq +:+ num_to_string (times10 x) +:+ dq +:+
  " y=" +:+ dq +:+ num_to_string (times10 y) +:+ dq +:+
  " width=" +:+ dq +:+ "10" +:+ dq +:+
  " height=" +:+ dq +:+ "10" +:+ dq +:+
  " fill=" +:+ dq +:+ color +:+ dq +:+ "/>".

Definition svgContent (s : State) : string :=
  let svgWidth := width (gridSize s) * 10 in
  let svgHeight := height (gridSize s) * 10 in
  let svgContent := svgOpen svgWidth svgHeight in
  let svgContent :=
    JSMap.forEach (λ svgContent color key, svgContent +:+ svgRect color key)
                  (pixels s) svgContent in
  svgContent +:+ "</svg>".

Definition downloadAsSVG (s : State) : Download string :=
  mkDownload (svgContent s) "pixel-art.svg" "image/svg+xml".

(** *** Raster export *)

(** One [ctx.fillRect(x, y, w, h)] with the [fillStyle] in force. *)
Record FillRect : Type := mkFillRect {
  fillStyle : string;
  rect_x : num;
  rect_y : num;
  rect_w : nat;
  rect_h : nat
}.

(** The hidden canvas after drawing: its size and the fills issued since the
    last [clearRect], in order. *)
Record Canvas : Type := mkCanvas {
  canvas_width : nat;
  canvas_height : nat;
  fills : list FillRect
}.

(** What the host may refuse: the mounted canvas, its 2-D context, the
    encoded blob. *)
Record Host : Type := mkHost {
  canvasRef_current : bool;
  getContext_2d : bool;
  toBlob_result : bool
}.

(** The fill issued by one call of the [forEach] callback. *)
Definition canvasFill (color key : string) : FillRect :=
  let '(x, y) := parseKey key in
  mkFillRect color (times10 x) (times10 y) 10 10.

Definition drawCanvas (s : State) : Canvas :=
  let w := width (gridSize s) * 10 in
  let h := height (gridSize s) * 10 in
  let cleared : list FillRect := [] in
  mkCanvas w h
    (JSMap.forEach (λ drawn color key, drawn ++ [canvasFill color key])
                   (pixels s) cleared).

Definition downloadAsPNG (host : Host) (s : State) : option (Download Canvas) :=
  if negb (canvasRef_current host) then None
  else if negb (getContext_2d host) then None
  else
    let canvas := drawCanvas s in
    if negb (toBlob_result host) then None
    else Some (mkDownload canvas "pixel-art.png" "image/png").

(** ** Events, as wired in the rendered tree *)

Inductive Event : Type :=
  | WindowResize (innerWidth : nat)
  | ColorInputChange (value : string)
  | RecentColorClick (index : nat)
  | CellClick (x y : nat) (shiftKey : bool)
  | CellMouseDown (x y : nat)
  | CellMouseEnter (x y : nat) (shiftKey : bool)
  | CellTouchStart (x y : nat) (touches : nat)
  | CellTouchEnd (x y : nat)
  | CellTouchMove (x y : nat) (touches : nat)
  | GridMouseUp
  | GridMouseLeave
  | ClearClick.

Definition step (s : State) (e : Event) : State :=
  match e with
  | WindowResize innerWidth => checkMobile innerWidth s
  | ColorInputChange value => handleColorChange value s
  | RecentColorClick index => swatchClick index s
  | CellClick x y shiftKey => handlePixelClick x y shiftKey s
  | CellMouseDown _ _ => handleMouseDown s
  | CellMouseEnter x y _ => handlePixelMouseEnter x y s
  | CellTouchStart x y touches => handleTouchClick x y touches (handleMouseDown s)
  | CellTouchEnd _ _ => handleMouseUp s
  | CellTouchMove x y touches => handleTouchMove touches x y s
  | GridMouseUp => handleMouseUp s
  | GridMouseLeave => handleMouseUp s
  | ClearClick => clearCanvas s
  end.

(** A sequence of events each handled after the re-render that follows the
    previous one: every handler then closes over the result of the handler
    before it.  React re-renders before the next event after a discrete event
    (click, mouse down, touch start, change); several continuous events (mouse
    enter, touch move) may be handled within one render, which is [batch]
    below. *)
Definition run (s : State) (events : list Event) : State :=
  fold_left step events s.

(** ** The specification's own reading of the pixel store *)

(** A paint or an erase at a cell. *)
Inductive GridOp : Type :=
  | Paint (x y : nat) (color : string)
  | Erase (x y : nat).

(** The specification's reduction: [set] for a paint, [delete] for an erase,
    left to right, on a mapping keyed by coordinate. *)
Definition spec_apply (m : gmap (nat * nat) string) (op : GridOp)
  : gmap (nat * nat) string :=
  match op with
  | Paint x y color => <[(x, y) := color]> m
  | Erase x y => delete (x, y) m
  end.

Definition spec_reduce (ops : list GridOp) : gmap (nat * nat) string :=
  fold_left spec_apply ops ∅.

(** The same operations as the component receives them: a paint is a choice
    of colour followed by a plain click, an erase is a shift-click. *)
Definition events_of_op (op : GridOp) : list Event :=
  match op with
  | Paint x y color => [ColorInputChange color; CellClick x y false]
  | Erase x y => [CellClick x y true]
  end.

Definition events_of_ops (ops : list GridOp) : list Event :=
  ops ≫= events_of_op.

(** ** Notions used in the statements *)

(** Whether a character occurs in a string. *)
Fixpoint occurs (c : ascii) (s : string) : bool :=
  match s with
  | EmptyString => false
  | String a s' => bool_decide (a = c) || occurs c s'
  end.

(** The key of a cell given as a pair. *)
Definition cellKey (c : nat * nat) : string := getPixelKey c.1 c.2.

(** Concatenation of a list of text fragments. *)
Definition flat (l : list string) : string := foldr String.append EmptyString l.

(** The rectangle elements of the document, one per entry, in the order
    [forEach] visits them. *)
Definition svgRects (m : JSMap.t) : list string :=
  (λ kv, svgRect kv.2 kv.1) <$> m.

(** The text of a rectangle element at pixel position [(px, py)]. *)
Definition rectText (px py : nat) (color : string) : string :=
  "<rect x=" +:+ dq +:+ nat_to_string px +:+ dq +:+
  " y=" +:+ dq +:+ nat_to_string py +:+ dq +:+
  " width=" +:+ dq +:+ "10" +:+ dq +:+
  " height=" +:+ dq +:+ "10" +:+ dq +:+
  " fill=" +:+ dq +:+ color +:+ dq +:+ "/>".

(** The history after a sequence of [addToRecentColors] calls. *)
Definition useAll (colors : list string) (s : State) : State :=
  fold_left (λ s c, addToRecentColors c s) colors s.

(** What every reachable state satisfies. *)
Record inv (s : State) : Prop := mkInv {
  inv_wf : JSMap.wf (pixels s);
  inv_length : length (recentColors s) ≤ 10;
  inv_NoDup : NoDup (recentColors s);
  inv_selected : selectedColor s ∈ recentColors s
}.

(** The store of [s] holds exactly the cells of [m], under their keys. *)
Definition represents (s : State) (m : gmap (nat * nat) string) : Prop :=
  JSMap.to_gmap (pixels s) = kmap cellKey m.

(** ** Scenarios *)

(** Two cells painted in one order, and in the other. *)
Definition painted_00_then_11 : State :=
  run init [CellClick 0 0 false; CellClick 1 1 false].
Definition painted_11_then_00 : State :=
  run init [CellClick 1 1 false; CellClick 0 0 false].

(** The state after picking red: the history is [red; seed], the seed is the
    second button of the recent-colour row. *)
Definition picked_red : State := run init [ColorInputChange "#ff0000"].

(** A pointer drag over (0,1) and (0,2) in black, a release, and a second drag
    entering (0,1) with the shift key held. *)
Definition drag_pointer : list Event :=
  [ColorInputChange "#000000";
   CellMouseDown 0 0; CellMouseEnter 0 1 false; CellMouseEnter 0 2 false;
   GridMouseUp;
   CellMouseDown 0 0; CellMouseEnter 0 1 true].

(** The same with touch input; in the second gesture a second finger lands on
    (3,3) before the move over (0,1). *)
Definition drag_touch : list Event :=
  [ColorInputChange "#000000";
   CellTouchStart 0 0 1; CellTouchMove 0 1 1; CellTouchMove 0 2 1;
   CellTouchEnd 0 2;
   CellTouchStart 0 0 1; CellTouchStart 3 3 2; CellTouchMove 0 1 2].

(** The 4×4 scenario: paint (0,0) red, paint (1,1) green, erase (0,0). *)
Definition scenario_4x4 : State :=
  run (initialState (mkGridSize 4 4))
      [ColorInputChange "#ff0000"; CellClick 0 0 false;
       ColorInputChange "#00ff00"; CellClick 1 1 false;
       CellClick 0 0 true].

(** ** The rendered grid *)

(** What [renderGrid] puts into one cell element: its React key, the
    coordinates its handlers close over, the size classes and the background
    colour. *)
Record Cell : Type := mkCell {
  cell_key : string;
  cell_x : nat;
  cell_y : nat;
  cell_size : string;
  backgroundColor : string
}.

(** [pixels.get(pixelKey) || 'transparent']: an absent entry and the empty
    string both fall through to the right operand. *)
Definition orTransparent (v : option string) : string :=
  match v with
  | Some c => if decide (c = EmptyString) then "transparent" else c
  | None => "transparent"
  end.

(** The element pushed for cell (x, y). *)
Definition renderCell (s : State) (pixelSize : string) (x y : nat) : Cell :=
  let pixelKey := getPixelKey x y in
  let pixelColor := orTransparent (JSMap.get pixelKey (pixels s)) in
  mkCell pixelKey x y pixelSize pixelColor.

(** The two nested [for] loops, pushing onto [grid]. *)
Definition renderGrid (s : State) : list Cell :=
  let grid : list Cell := [] in
  let pixelSize := if isMobile s then "w-6 h-6" else "w-4 h-4" in
  fold_left
    (λ grid y,
       fold_left (λ grid x, grid ++ [renderCell s pixelSize x y])
                 (seq 0 (width (gridSize s))) grid)
    (seq 0 (height (gridSize s))) grid.

(** The size classes of the cells of state [s]. *)
Definition pixelSize (s : State) : string :=
  if isMobile s then "w-6 h-6" else "w-4 h-4".

(** ** Events the rendered grid can raise *)

(** The cell an event comes from, for the events raised by a cell element. *)
Definition event_cell (e : Event) : option (nat * nat) :=
  match e with
  | CellClick x y _ | CellMouseDown x y | CellMouseEnter x y _
  | CellTouchStart x y _ | CellTouchEnd x y | CellTouchMove x y _ => Some (x, y)
  | _ => None
  end.

(** Cell events come from a cell of the grid as rendered in state [s]. *)
Definition event_ok (s : State) (e : Event) : Prop :=
  match event_cell e with
  | Some (x, y) => x < width (gridSize s) ∧ y < height (gridSize s)
  | None => True
  end.

(** A sequence of events each raised by the grid as rendered when it occurs. *)
Fixpoint run_ok (s : State) (events : list Event) : Prop :=
  match events with
  | [] => True
  | e :: events => event_ok s e ∧ run_ok (step s e) events
  end.

(** A pointer or touch move over a cell. *)
Definition is_move (e : Event) : Prop :=
  match e with
  | CellMouseEnter _ _ _ | CellTouchMove _ _ _ => True
  | _ => False
  end.

(** Every key of the store is the key of a cell satisfying [P]. *)
Definition keys_sat (P : nat → nat → Prop) (m : JSMap.t) : Prop :=
  ∀ k, k ∈ m.*1 → ∃ x y, P x y ∧ k = getPixelKey x y.

(** The cells of a [w]×[h] grid, row by row. *)
Definition gridCells (w h : nat) : list (nat * nat) :=
  seq 0 h ≫= λ y, (λ x, (x, y)) <$> seq 0 w.

(** The rectangle element that describes a canvas fill. *)
Definition rectOfFill (f : FillRect) : string :=
  "<rect x=" +:+ dq +:+ num_to_string (rect_x f) +:+ dq +:+
  " y=" +:+ dq +:+ num_to_string (rect_y f) +:+ dq +:+
  " width=" +:+ dq +:+ nat_to_string (rect_w f) +:+ dq +:+
  " height=" +:+ dq +:+ nat_to_string (rect_h f) +:+ dq +:+
  " fill=" +:+ dq +:+ fillStyle f +:+ dq +:+ "/>".

(** The geometry is one of the two presets, and the mobile flag goes with the
    small one. *)
Definition preset (s : State) : Prop :=
  (gridSize s = mkGridSize 16 16 ∨ gridSize s = mkGridSize 32 32) ∧
  (isMobile s = true → gridSize s = mkGridSize 16 16).

(** The canvas position drawn for a key. *)
Definition keyPosition (key : string) : num * num :=
  let '(x, y) := parseKey key in (times10 x, times10 y).

(** ** Handlers within one render *)

(** A handler reads [pixels], [selectedColor], [isDrawing] and [recentColors]
    from the render that installed it ([rendered]); a setter called with a
    value replaces what is queued ([setPixels], [setSelectedColor],
    [setIsDrawing], [setGridSize], [setIsMobile]), a setter called with an
    updater ([setRecentColors] in [addToRecentColors]) applies to what is
    queued ([current]). *)
Definition stepIn (rendered current : State) (e : Event) : State :=
  let paint x y :=
    let pixelKey := getPixelKey x y in
    let newPixels :=
      JSMap.set pixelKey (selectedColor rendered) (pixels rendered) in
    setPixels newPixels in
  let erase x y :=
    setPixels (JSMap.delete (getPixelKey x y) (pixels rendered)) in
  match e with
  | WindowResize innerWidth => checkMobile innerWidth current
  | ColorInputChange value => handleColorChange value current
  | RecentColorClick index =>
      match recentColors rendered !! index with
      | Some color => setSelectedColor color current
      | None => current
      end
  | CellClick x y shiftKey =>
      if shiftKey then erase x y current
      else paint x y (addToRecentColors (selectedColor rendered) current)
  | CellMouseDown _ _ => handleMouseDown current
  | CellMouseEnter x y _ | CellTouchMove x y _ =>
      if isDrawing rendered then
        addToRecentColors (selectedColor rendered) (paint x y current)
      else current
  | CellTouchStart x y touches =>
      if bool_decide (1 < touches) then erase x y (handleMouseDown current)
      else paint x y (addToRecentColors (selectedColor rendered)
                                        (handleMouseDown current))
  | CellTouchEnd _ _ | GridMouseUp | GridMouseLeave => handleMouseUp current
  | ClearClick => clearCanvas current
  end.

(** The events handled within one render of state [s], and the state of the
    next render. *)
Definition batch (s : State) (events : list Event) : State :=
  fold_left (stepIn s) events s.

(** Events grouped by the render they are handled in. *)
Definition runBatches (s : State) (batches : list (list Event)) : State :=
  fold_left batch batches s.

(** The root element of a vector document of the given size. *)
Definition svgRootText (w h : nat) : string :=
  "<svg width=" +:+ dq +:+ nat_to_string w +:+ dq +:+
  " height=" +:+ dq +:+ nat_to_string h +:+ dq +:+
  " xmlns=" +:+ dq +:+ "http://www.w3.org/2000/svg" +:+ dq +:+ ">".

(** * Properties *)

(** ** Keys: formatting and parsing *)

Section Keys.

Lemma string_of_uint_no_dash (d : Decimal.uint) :
  occurs "-"%char (NilEmpty.string_of_uint d) = false.
Proof. induction d; simpl; auto. Qed.

Lemma nat_to_string_no_dash (n : nat) :
  occurs "-"%char (nat_to_string n) = false.
Proof. apply string_of_uint_no_dash. Qed.

Lemma Number_nat_to_string (n : nat) : Number (nat_to_string n) = Num n.
Proof.
  unfold Number, nat_to_string.
  by rewrite NilEmpty.usu, Unsigned.of_to.
Qed.

Lemma split_no_sep (sep : ascii) (s : string) :
  occurs sep s = false → split sep s = [s].
Proof.
  induction s as [|a s IH]; simpl; [done|].
  intros [Ha Hs]%orb_false_elim.
  apply bool_decide_eq_false in Ha.
  rewrite decide_False by done. by rewrite IH.
Qed.

Lemma split_app_sep (sep : ascii) (s1 s2 : string) :
  occurs sep s1 = false →
  split sep (s1 +:+ String sep s2) = s1 :: split sep s2.
Proof.
  induction s1 as [|a s1 IH]; simpl.
  - intros _. by rewrite decide_True.
  - intros [Ha Hs]%orb_false_elim.
    apply bool_decide_eq_false in Ha.
    rewrite decide_False by done. by rewrite IH.
Qed.

Lemma split_getPixelKey (x y : nat) :
  split "-"%char (getPixelKey x y) = [nat_to_string x; nat_to_string y].
Proof.
  unfold getPixelKey.
  change ("-" +:+ nat_to_string y) with (String "-"%char (nat_to_string y)).
  rewrite split_app_sep by apply nat_to_string_no_dash.
  by rewrite split_no_sep by apply nat_to_string_no_dash.
Qed.

Lemma parseKey_getPixelKey (x y : nat) :
  parseKey (getPixelKey x y) = (Num x, Num y).
Proof.
  unfold parseKey. rewrite split_getPixelKey. simpl.
  unfold destructure2. simpl. by rewrite !Number_nat_to_string.
Qed.

#[global] Instance cellKey_inj : Inj (=) (=) cellKey.
Proof.
  intros [x y] [x' y'] H. unfold cellKey in H. simpl in H.
  apply (f_equal parseKey) in H.
  rewrite !parseKey_getPixelKey in H. congruence.
Qed.

Lemma getPixelKey_inj (x y x' y' : nat) :
  getPixelKey x y = getPixelKey x' y' → x = x' ∧ y = y'.
Proof.
  intros H. assert (Hc : cellKey (x, y) = cellKey (x', y')) by done.
  apply (inj cellKey) in Hc. by inversion Hc.
Qed.

End Keys.

(** ** The pixel store as a finite mapping *)

Section Store.

Implicit Types (m : JSMap.t) (k v : string).

Lemma get_to_gmap k m : JSMap.get k m = JSMap.to_gmap m !! k.
Proof.
  unfold JSMap.to_gmap.
  induction m as [|[k' v'] m IH]; simpl; [done|].
  destruct (decide (k' = k)) as [->|Hne].
  - by rewrite lookup_insert_eq.
  - by rewrite lookup_insert_ne.
Qed.

Lemma to_gmap_set k v m :
  JSMap.to_gmap (JSMap.set k v m) = <[k := v]> (JSMap.to_gmap m).
Proof.
  unfold JSMap.to_gmap.
  induction m as [|[k' v'] m IH]; simpl; [done|].
  destruct (decide (k' = k)) as [->|Hne]; simpl.
  - by rewrite insert_insert_eq.
  - rewrite IH. by apply insert_insert_ne.
Qed.

Lemma to_gmap_delete k m :
  JSMap.to_gmap (JSMap.delete k m) = delete k (JSMap.to_gmap m).
Proof.
  unfold JSMap.to_gmap.
  induction m as [|[k' v'] m IH]; simpl.
  - by rewrite delete_empty.
  - destruct (decide (k' = k)) as [->|Hne]; simpl.
    + by rewrite delete_insert_eq.
    + rewrite IH. by rewrite delete_insert_ne.
Qed.

Lemma keys_set k v m :
  (JSMap.set k v m).*1 = (m.*1) ∨
  ((k ∉ m.*1) ∧ (JSMap.set k v m).*1 = (m.*1) ++ [k]).
Proof.
  induction m as [|[k' v'] m IH]; cbn [JSMap.set].
  - right. split; [apply not_elem_of_nil | done].
  - destruct (decide (k' = k)) as [->|Hne]; rewrite !fmap_cons; cbn [fst];
      [by left|].
    destruct IH as [->|[Hk ->]]; [by left|].
    right. split; [|done]. apply not_elem_of_cons. by split.
Qed.

Lemma wf_empty : JSMap.wf JSMap.empty.
Proof. apply NoDup_nil_2. Qed.

Lemma wf_set k v m : JSMap.wf m → JSMap.wf (JSMap.set k v m).
Proof.
  unfold JSMap.wf. intros Hm.
  destruct (keys_set k v m) as [->|[Hk ->]]; [done|].
  apply NoDup_app. split_and!; [done| |apply NoDup_singleton].
  intros x Hx ->%list_elem_of_singleton. done.
Qed.

Lemma keys_delete k m :
  (JSMap.delete k m).*1 = filter (λ k', k' ≠ k) (m.*1).
Proof.
  induction m as [|[k' v'] m IH]; cbn [JSMap.delete]; [done|].
  rewrite fmap_cons. cbn [fst].
  destruct (decide (k' = k)) as [->|Hne].
  - rewrite filter_cons_False by naive_solver. done.
  - rewrite filter_cons_True by done. rewrite fmap_cons. cbn [fst]. by rewrite IH.
Qed.

Lemma wf_delete k m : JSMap.wf m → JSMap.wf (JSMap.delete k m).
Proof.
  unfold JSMap.wf. rewrite keys_delete. apply NoDup_filter.
Qed.

(** Two well-formed stores that agree as mappings hold the same entries, in
    some order. *)
Lemma to_gmap_eq_Permutation m1 m2 :
  JSMap.wf m1 → JSMap.wf m2 →
  JSMap.to_gmap m1 = JSMap.to_gmap m2 → m1 ≡ₚ m2.
Proof. apply list_to_map_inj. Qed.

End Store.

(** ** The recent-colour list *)

Section History.

Implicit Types (c : string) (h : list string).

Lemma recentUpdate_head c h : head (recentUpdate c h) = Some c.
Proof. done. Qed.

Lemma recentUpdate_length c h : length (recentUpdate c h) ≤ 10.
Proof. unfold recentUpdate. rewrite length_take. lia. Qed.

Lemma recentUpdate_NoDup c h : NoDup h → NoDup (recentUpdate c h).
Proof.
  intros Hh. unfold recentUpdate.
  eapply sublist_NoDup; [|apply sublist_take].
  apply NoDup_cons. split.
  - rewrite list_elem_of_filter. by intros [? _].
  - by apply NoDup_filter.
Qed.

Lemma recentUpdate_elem c h : c ∈ recentUpdate c h.
Proof. unfold recentUpdate. simpl. apply list_elem_of_here. Qed.

Lemma filter_ne_cons c d h :
  filter (λ x, x ≠ c) (d :: h)
  = if decide (d = c) then filter (λ x, x ≠ c) h
    else d :: filter (λ x, x ≠ c) h.
Proof.
  destruct (decide (d = c)) as [->|Hne].
  - apply filter_cons_False. by intros Hn.
  - by apply filter_cons_True.
Qed.

Lemma recentUpdate_1 c d :
  recentUpdate c [d] = if decide (d = c) then [c] else [c; d].
Proof.
  unfold recentUpdate. rewrite filter_ne_cons, filter_nil.
  by destruct (decide (d = c)).
Qed.

Lemma recentUpdate_2 c d e :
  recentUpdate c [d; e]
  = c :: (if decide (d = c) then [] else [d])
      ++ (if decide (e = c) then [] else [e]).
Proof.
  unfold recentUpdate. rewrite !filter_ne_cons, filter_nil.
  by destruct (decide (d = c)), (decide (e = c)).
Qed.

Lemma useAll_snoc colors c s :
  useAll (colors ++ [c]) s = addToRecentColors c (useAll colors s).
Proof. unfold useAll. by rewrite fold_left_app. Qed.

Lemma useAll_invariant colors s :
  length (recentColors s) ≤ 10 → NoDup (recentColors s) →
  length (recentColors (useAll colors s)) ≤ 10 ∧
  NoDup (recentColors (useAll colors s)).
Proof.
  revert s. induction colors as [|c colors IH]; intros s Hlen Hnd; [done|].
  apply IH; simpl.
  - apply recentUpdate_length.
  - by apply recentUpdate_NoDup.
Qed.

End History.

(** ** Invariants of the running component *)

Section Session.

Lemma inv_initialState (g : GridSize) : inv (initialState g).
Proof.
  split; simpl.
  - apply wf_empty.
  - lia.
  - apply NoDup_singleton.
  - apply list_elem_of_here.
Qed.

Lemma inv_paint (k : string) (s : State) :
  inv s →
  inv (setPixels (JSMap.set k (selectedColor s) (pixels s))
                 (addToRecentColors (selectedColor s) s)).
Proof.
  intros [Hwf Hlen Hnd Hsel]. split.
  - by apply wf_set.
  - apply recentUpdate_length.
  - by apply recentUpdate_NoDup.
  - apply recentUpdate_elem.
Qed.

Lemma inv_erase (k : string) (s : State) :
  inv s → inv (setPixels (JSMap.delete k (pixels s)) s).
Proof.
  intros [Hwf Hlen Hnd Hsel]. split; simpl; try done. by apply wf_delete.
Qed.

Lemma inv_step (s : State) (e : Event) : inv s → inv (step s e).
Proof.
  intros Hs. destruct e; simpl.
  - destruct Hs. unfold checkMobile. by case_bool_decide; split.
  - destruct Hs.
    split; [done | apply recentUpdate_length | by apply recentUpdate_NoDup
           | apply recentUpdate_elem].
  - unfold swatchClick. destruct (recentColors s !! index) as [c|] eqn:Hc; [|done].
    destruct Hs. split; simpl; try done.
    by apply list_elem_of_lookup_2 in Hc.
  - unfold handlePixelClick. destruct shiftKey; [by apply inv_erase|].
    by apply inv_paint.
  - by destruct Hs.
  - unfold handlePixelMouseEnter. destruct (isDrawing s); [|done].
    by apply (inv_paint (getPixelKey x y)).
  - unfold handleTouchClick. case_bool_decide.
    + apply (inv_erase _ (handleMouseDown s)). by destruct Hs.
    + apply (inv_paint _ (handleMouseDown s)). by destruct Hs.
  - by destruct Hs.
  - unfold handleTouchMove. destruct (isDrawing s); [|done].
    by apply (inv_paint (getPixelKey x y)).
  - by destruct Hs.
  - by destruct Hs.
  - destruct Hs. split; simpl; try done. apply wf_empty.
Qed.

Lemma inv_run (events : list Event) (s : State) : inv s → inv (run s events).
Proof.
  revert s. induction events as [|e events IH]; intros s Hs; [done|].
  apply IH. by apply inv_step.
Qed.

Lemma run_app (s : State) (es1 es2 : list Event) :
  run s (es1 ++ es2) = run (run s es1) es2.
Proof. apply fold_left_app. Qed.

End Session.

(** ** What the exporters emit *)

Section Exporters.

Lemma string_app_cons (x : ascii) (a b : string) :
  String x a +:+ b = String x (a +:+ b).
Proof. reflexivity. Qed.

Lemma string_app_assoc (a b c : string) : (a +:+ b) +:+ c = a +:+ (b +:+ c).
Proof. induction a as [|x a IH]; [done|]. by rewrite !string_app_cons, IH. Qed.

Lemma string_app_nil_r (a : string) : a +:+ EmptyString = a.
Proof. induction a as [|x a IH]; [done|]. by rewrite string_app_cons, IH. Qed.

Lemma string_length_app (a b : string) :
  String.length (a +:+ b) = String.length a + String.length b.
Proof.
  induction a as [|x a IH]; [done|].
  rewrite string_app_cons. simpl. by rewrite IH.
Qed.

Lemma flat_cons (x : string) (l : list string) : flat (x :: l) = x +:+ flat l.
Proof. reflexivity. Qed.

Lemma flat_app (l1 l2 : list string) : flat (l1 ++ l2) = flat l1 +:+ flat l2.
Proof.
  induction l1 as [|x l1 IH]; [done|].
  simpl. by rewrite IH, string_app_assoc.
Qed.

Lemma length_flat_Permutation (l1 l2 : list string) :
  l1 ≡ₚ l2 → String.length (flat l1) = String.length (flat l2).
Proof.
  induction 1 as [|x l1 l2 _ IH|x y l|l1 l2 l3 _ IH1 _ IH2]; simpl.
  - done.
  - by rewrite !string_length_app, IH.
  - rewrite !string_length_app. lia.
  - congruence.
Qed.

Lemma forEach_append (f : string → string → string) (m : JSMap.t) (acc : string) :
  JSMap.forEach (λ a color key, a +:+ f color key) m acc
  = acc +:+ flat ((λ kv, f kv.2 kv.1) <$> m).
Proof.
  unfold JSMap.forEach. revert acc.
  induction m as [|[k v] m IH]; intros acc; simpl.
  - by rewrite string_app_nil_r.
  - by rewrite IH, string_app_assoc.
Qed.

Lemma forEach_push {A : Type} (f : string → string → A) (m : JSMap.t) (acc : list A) :
  JSMap.forEach (λ a color key, a ++ [f color key]) m acc
  = acc ++ ((λ kv, f kv.2 kv.1) <$> m).
Proof.
  unfold JSMap.forEach. revert acc.
  induction m as [|[k v] m IH]; intros acc; simpl.
  - by rewrite app_nil_r.
  - by rewrite IH, <- app_assoc.
Qed.

Lemma svgContent_rects (s : State) :
  svgContent s
  = svgOpen (width (gridSize s) * 10) (height (gridSize s) * 10)
    +:+ flat (svgRects (pixels s)) +:+ "</svg>".
Proof.
  unfold svgContent. rewrite forEach_append. by rewrite string_app_assoc.
Qed.

Lemma drawCanvas_fills (s : State) :
  fills (drawCanvas s) = (λ kv, canvasFill kv.2 kv.1) <$> pixels s.
Proof. unfold drawCanvas. simpl. by rewrite forEach_push. Qed.

Lemma svgRect_getPixelKey (x y : nat) (color : string) :
  svgRect color (getPixelKey x y) = rectText (x * 10) (y * 10) color.
Proof. unfold svgRect. by rewrite parseKey_getPixelKey. Qed.

Lemma canvasFill_getPixelKey (x y : nat) (color : string) :
  canvasFill color (getPixelKey x y)
  = mkFillRect color (Num (x * 10)) (Num (y * 10)) 10 10.
Proof. unfold canvasFill. by rewrite parseKey_getPixelKey. Qed.

Lemma get_Some_elem (k v : string) (m : JSMap.t) :
  JSMap.get k m = Some v → (k, v) ∈ m.
Proof.
  induction m as [|[k' v'] m IH]; simpl; [done|].
  destruct (decide (k' = k)) as [->|Hne].
  - intros [= ->]. apply list_elem_of_here.
  - intros H. apply list_elem_of_further. by apply IH.
Qed.

Lemma get_set_eq (k v : string) (m : JSMap.t) :
  JSMap.get k (JSMap.set k v m) = Some v.
Proof. by rewrite get_to_gmap, to_gmap_set, lookup_insert_eq. Qed.

Lemma get_set_ne (k k' v : string) (m : JSMap.t) :
  k' ≠ k → JSMap.get k' (JSMap.set k v m) = JSMap.get k' m.
Proof. intros. by rewrite !get_to_gmap, to_gmap_set, lookup_insert_ne. Qed.

Lemma get_delete_eq (k : string) (m : JSMap.t) :
  JSMap.get k (JSMap.delete k m) = None.
Proof. by rewrite get_to_gmap, to_gmap_delete, lookup_delete_eq. Qed.

Lemma get_delete_ne (k k' : string) (m : JSMap.t) :
  k' ≠ k → JSMap.get k' (JSMap.delete k m) = JSMap.get k' m.
Proof. intros. by rewrite !get_to_gmap, to_gmap_delete, lookup_delete_ne. Qed.

End Exporters.

(** ** The order of the rectangles *)

Section Order.

Lemma string_of_uint_no_quote (d : Decimal.uint) :
  occurs "034"%char (NilEmpty.string_of_uint d) = false.
Proof. induction d; simpl; auto. Qed.

Lemma nat_to_string_inj (a b : nat) : nat_to_string a = nat_to_string b → a = b.
Proof.
  intros H. apply (f_equal Number) in H.
  rewrite !Number_nat_to_string in H. by injection H.
Qed.

Lemma cut_at (q : ascii) (s1 s2 r1 r2 : string) :
  occurs q s1 = false → occurs q s2 = false →
  s1 +:+ String q r1 = s2 +:+ String q r2 → s1 = s2 ∧ r1 = r2.
Proof.
  intros H1 H2 Heq.
  assert (Hs : s1 = s2).
  { apply (f_equal (split q)) in Heq.
    rewrite !split_app_sep in Heq by done. by injection Heq. }
  subst s2. split; [done|].
  apply (inj (String.app s1)) in Heq. by injection Heq.
Qed.

Lemma string_app_nil_l (a : string) : EmptyString +:+ a = a.
Proof. reflexivity. Qed.

Lemma rectText_head (px py px' py' : nat) (c c' r r' : string) :
  rectText px py c +:+ r = rectText px' py' c' +:+ r' →
  px = px' ∧ py = py'.
Proof.
  unfold rectText, dq. rewrite !string_app_assoc.
  intros H. apply (inj (String.app "<rect x=")) in H.
  rewrite !string_app_cons, !string_app_nil_l in H. injection H as H.
  apply cut_at in H as [Hx H]; [|apply string_of_uint_no_quote..].
  apply nat_to_string_inj in Hx. split; [done|].
  injection H as H.
  apply cut_at in H as [Hy _]; [|apply string_of_uint_no_quote..].
  by apply nat_to_string_inj in Hy.
Qed.

Lemma to_gmap_nil_inv (m : JSMap.t) : JSMap.to_gmap m = ∅ → m = [].
Proof.
  destruct m as [|[k v] m]; [done|].
  unfold JSMap.to_gmap. simpl. intros H. by apply insert_non_empty in H.
Qed.

Lemma to_gmap_cons_inv (k v : string) (m1 m2 : JSMap.t) :
  JSMap.wf ((k, v) :: m1) → JSMap.wf ((k, v) :: m2) →
  JSMap.to_gmap ((k, v) :: m1) = JSMap.to_gmap ((k, v) :: m2) →
  JSMap.to_gmap m1 = JSMap.to_gmap m2.
Proof.
  unfold JSMap.wf. rewrite !fmap_cons. cbn [fst].
  intros [H1 _]%NoDup_cons [H2 _]%NoDup_cons.
  apply (not_elem_of_list_to_map_1 (M := gmap string)) in H1, H2.
  unfold JSMap.to_gmap. simpl. intros H.
  apply (f_equal (delete k)) in H.
  by rewrite !delete_insert_eq, !delete_id in H.
Qed.

(** For stores of cell keys that agree as mappings, equal rectangle texts
    force equal insertion order: the first rectangle names its cell. *)
Lemma svgRects_order (m1 m2 : JSMap.t) (tail : string) :
  JSMap.wf m1 → JSMap.wf m2 →
  keys_sat (λ _ _, True) m1 → keys_sat (λ _ _, True) m2 →
  JSMap.to_gmap m1 = JSMap.to_gmap m2 →
  flat (svgRects m1) +:+ tail = flat (svgRects m2) +:+ tail →
  m1 = m2.
Proof.
  revert m2. induction m1 as [|[k1 c1] m1 IH];
    intros m2 Hwf1 Hwf2 Hk1 Hk2 Hm Hdoc.
  - symmetry. apply to_gmap_nil_inv. symmetry. exact Hm.
  - destruct m2 as [|[k2 c2] m2].
    { apply (to_gmap_nil_inv ((k1, c1) :: m1)) in Hm. discriminate Hm. }
    destruct (Hk1 k1) as (x1 & y1 & _ & ->);
      [rewrite fmap_cons; apply list_elem_of_here|].
    destruct (Hk2 k2) as (x2 & y2 & _ & ->);
      [rewrite fmap_cons; apply list_elem_of_here|].
    unfold svgRects in Hdoc. rewrite !fmap_cons, !flat_cons in Hdoc.
    cbn [fst snd] in Hdoc.
    rewrite !svgRect_getPixelKey, !string_app_assoc in Hdoc.
    destruct (rectText_head _ _ _ _ _ _ _ _ Hdoc) as [Hx Hy].
    assert (x1 = x2) as -> by lia. assert (y1 = y2) as -> by lia.
    assert (c1 = c2) as ->.
    { apply (f_equal (λ M, M !! getPixelKey x2 y2)) in Hm.
      unfold JSMap.to_gmap in Hm. simpl in Hm.
      rewrite !lookup_insert_eq in Hm. by injection Hm. }
    f_equal.
    apply (inj (String.app _)) in Hdoc.
    apply IH; try done.
    + unfold JSMap.wf in *. rewrite fmap_cons in Hwf1.
      by apply NoDup_cons in Hwf1 as [_ ?].
    + unfold JSMap.wf in *. rewrite fmap_cons in Hwf2.
      by apply NoDup_cons in Hwf2 as [_ ?].
    + intros k Hk. apply Hk1. rewrite fmap_cons. by apply list_elem_of_further.
    + intros k Hk. apply Hk2. rewrite fmap_cons. by apply list_elem_of_further.
    + by apply (to_gmap_cons_inv (getPixelKey x2 y2) c2).
Qed.
End Order.

Lemma svgOpen_text (w h : nat) : svgOpen w h = svgRootText w h.
Proof. reflexivity. Qed.

(** * The specification's statements *)

(** ** C1: the vector export and the order of painting *)

(** C1, as stated, fails: [painted_00_then_11] and [painted_11_then_00] hold
    the same mapping from cells to colours and the same geometry, and their
    vector exports differ: the rectangles follow the insertion order of the
    store. *)
Lemma C1_counterexample :
  gridSize painted_00_then_11 = gridSize painted_11_then_00 ∧
  JSMap.to_gmap (pixels painted_00_then_11)
    = JSMap.to_gmap (pixels painted_11_then_00) ∧
  payload (downloadAsSVG painted_00_then_11)
    ≠ payload (downloadAsSVG painted_11_then_00).
Proof.
  split_and!.
  - reflexivity.
  - assert (pixels painted_00_then_11
            = [("0-0", "#3b82f6"); ("1-1", "#3b82f6")]) as -> by reflexivity.
    assert (pixels painted_11_then_00
            = [("1-1", "#3b82f6"); ("0-0", "#3b82f6")]) as -> by reflexivity.
    unfold JSMap.to_gmap. simpl. by apply insert_insert_ne.
  - apply String.eqb_neq. vm_compute. reflexivity.
Qed.

(** C1, amended: for two states with the same geometry whose stores are equal
    as mappings, the vector exports have the same root element and closing
    tag and their rectangle elements are the same up to order (so the
    documents have the same length); the rectangles follow the insertion order
    of the store, and for stores of cell keys (every store the handlers build)
    the documents are identical exactly when the stores also agree on that
    order. *)
Theorem C1_svg_equal_up_to_order (s1 s2 : State) :
  gridSize s1 = gridSize s2 →
  JSMap.wf (pixels s1) → JSMap.wf (pixels s2) →
  JSMap.to_gmap (pixels s1) = JSMap.to_gmap (pixels s2) →
  (∃ root : string,
      payload (downloadAsSVG s1)
        = root +:+ flat (svgRects (pixels s1)) +:+ "</svg>" ∧
      payload (downloadAsSVG s2)
        = root +:+ flat (svgRects (pixels s2)) +:+ "</svg>" ∧
      root = svgRootText (width (gridSize s1) * 10) (height (gridSize s1) * 10)) ∧
  svgRects (pixels s1) ≡ₚ svgRects (pixels s2) ∧
  String.length (payload (downloadAsSVG s1))
    = String.length (payload (downloadAsSVG s2)) ∧
  (pixels s1 = pixels s2 →
   payload (downloadAsSVG s1) = payload (downloadAsSVG s2)) ∧
  (keys_sat (λ _ _, True) (pixels s1) → keys_sat (λ _ _, True) (pixels s2) →
   payload (downloadAsSVG s1) = payload (downloadAsSVG s2) →
   pixels s1 = pixels s2).
Proof.
  intros Hg Hwf1 Hwf2 Hm.
  assert (Hp : svgRects (pixels s1) ≡ₚ svgRects (pixels s2)).
  { unfold svgRects. apply fmap_Permutation. by apply to_gmap_eq_Permutation. }
  change (payload (downloadAsSVG s1)) with (svgContent s1).
  change (payload (downloadAsSVG s2)) with (svgContent s2).
  rewrite !svgContent_rects, <- Hg. split_and!.
  - eexists. split_and!; [reflexivity | reflexivity | apply svgOpen_text].
  - done.
  - rewrite !string_length_app. by rewrite (length_flat_Permutation _ _ Hp).
  - by intros ->.
  - intros Hk1 Hk2 Hdoc. apply (inj (String.app _)) in Hdoc.
    by apply (svgRects_order _ _ "</svg>").
Qed.

Lemma C1_svg_equal_up_to_order_witness :
  gridSize painted_00_then_11 = gridSize painted_11_then_00 ∧
  JSMap.wf (pixels painted_00_then_11) ∧
  JSMap.wf (pixels painted_11_then_00) ∧
  JSMap.to_gmap (pixels painted_00_then_11)
    = JSMap.to_gmap (pixels painted_11_then_00) ∧
  svgRects (pixels painted_00_then_11) ≡ₚ svgRects (pixels painted_11_then_00).
Proof.
  assert (Hg : gridSize painted_00_then_11 = gridSize painted_11_then_00)
    by reflexivity.
  assert (H1 : JSMap.wf (pixels painted_00_then_11))
    by (apply (bool_decide_unpack _); vm_compute; exact I).
  assert (H2 : JSMap.wf (pixels painted_11_then_00))
    by (apply (bool_decide_unpack _); vm_compute; exact I).
  assert (Hm : JSMap.to_gmap (pixels painted_00_then_11)
               = JSMap.to_gmap (pixels painted_11_then_00)).
  { change (list_to_map [("0-0", "#3b82f6"); ("1-1", "#3b82f6")]
            =@{gmap string string}
            list_to_map [("1-1", "#3b82f6"); ("0-0", "#3b82f6")]).
    simpl. by apply insert_insert_ne. }
  split_and!; try done.
  exact (proj1 (proj2 (C1_svg_equal_up_to_order _ _ Hg H1 H2 Hm))).
Defined.

(** ** C2: selecting a colour *)

(** C2, as stated, fails for the recent-colour buttons: clicking the second
    button selects the seed colour and leaves the history as it is, so the
    history is not the result of [use] and the selected colour is not at
    index 0. *)
Lemma C2_counterexample :
  recentColors picked_red !! 1 = Some "#3b82f6" ∧
  let s' := step picked_red (RecentColorClick 1) in
  selectedColor s' = "#3b82f6" ∧
  recentColors s' ≠ recentUpdate "#3b82f6" (recentColors picked_red) ∧
  head (recentColors s') ≠ Some (selectedColor s').
Proof. split_and!; done. Qed.

(** C2, amended: for every colour [c], picking [c] in the colour input selects
    it and applies [use] to the history, so [c] is in the history, at index 0.
    Clicking the recent-colour button that shows [c] selects it and leaves the
    history unchanged; [c] is in the history, at the index of the button. *)
Theorem C2_select_color (s : State) (c : string) :
  (let s' := step s (ColorInputChange c) in
   selectedColor s' = c ∧
   recentColors s' = recentUpdate c (recentColors s) ∧
   recentColors s' !! 0 = Some c ∧
   c ∈ recentColors s') ∧
  (∀ i : nat,
     recentColors s !! i = Some c →
     let s' := step s (RecentColorClick i) in
     selectedColor s' = c ∧
     recentColors s' = recentColors s ∧
     recentColors s' !! i = Some c ∧
     c ∈ recentColors s').
Proof.
  split.
  - simpl. split_and!; try done. apply recentUpdate_elem.
  - intros i Hi. simpl. unfold swatchClick. rewrite Hi. simpl.
    split_and!; try done. by apply list_elem_of_lookup_2 in Hi.
Qed.

Lemma C2_select_color_witness :
  ("#ff0000" ∉ recentColors init) ∧
  selectedColor (step init (ColorInputChange "#ff0000")) = "#ff0000" ∧
  recentColors (step init (ColorInputChange "#ff0000")) !! 0 = Some "#ff0000" ∧
  recentColors picked_red !! 1 = Some "#3b82f6" ∧
  selectedColor (step picked_red (RecentColorClick 1)) = "#3b82f6" ∧
  recentColors (step picked_red (RecentColorClick 1)) = recentColors picked_red.
Proof.
  assert (Hnew : "#ff0000" ∉ recentColors init).
  { apply (bool_decide_unpack _). vm_compute. exact I. }
  assert (H : recentColors picked_red !! 1 = Some "#3b82f6") by reflexivity.
  destruct (C2_select_color init "#ff0000") as [(Hsel0 & _ & Hhead & _) _].
  destruct (C2_select_color picked_red "#3b82f6") as [_ Hswatch].
  destruct (Hswatch 1 H) as (Hsel & Hrec & _).
  split_and!; [exact Hnew | exact Hsel0 | exact Hhead | exact H
              | exact Hsel | exact Hrec].
Defined.

(** ** C3: select A, select A, select B *)

(** C3, as stated, fails: the initial history holds the seed colour, which
    stays behind the two selected colours. *)
Lemma C3_counterexample :
  "#ff0000" ≠ "#00ff00" ∧
  recentColors (run init [ColorInputChange "#ff0000";
                          ColorInputChange "#ff0000";
                          ColorInputChange "#00ff00"])
  ≠ ["#00ff00"; "#ff0000"].
Proof. split; done. Qed.

(** C3, amended: from the initial state, selecting A, A again, then B (A and
    B distinct) leaves the history [B; A] followed by the seed colour
    [#3b82f6] unless the seed is A or B; it is exactly [B; A] only in that
    case. *)
Theorem C3_select_A_A_B (A B : string) :
  A ≠ B →
  recentColors (run init [ColorInputChange A; ColorInputChange A;
                          ColorInputChange B])
  = if decide ("#3b82f6" = A ∨ "#3b82f6" = B)
    then [B; A]
    else [B; A; "#3b82f6"].
Proof.
  intros HAB.
  change (recentUpdate B (recentUpdate A (recentUpdate A ["#3b82f6"]))
          = if decide ("#3b82f6" = A ∨ "#3b82f6" = B)
            then [B; A] else [B; A; "#3b82f6"]).
  rewrite recentUpdate_1.
  destruct (decide ("#3b82f6" = A)) as [<-|HA].
  - rewrite decide_True by auto.
    rewrite !recentUpdate_1, decide_True by done.
    by rewrite recentUpdate_1, decide_False by done.
  - rewrite recentUpdate_2, decide_True, decide_False by done. simpl.
    rewrite recentUpdate_2, (decide_False (P := A = B)) by done.
    destruct (decide ("#3b82f6" = B)) as [<-|HB].
    + by rewrite decide_True by auto.
    + rewrite decide_False; [done|]. by intros [?|?].
Qed.

Lemma C3_select_A_A_B_witness :
  "#ff0000" ≠ "#00ff00" ∧
  recentColors (run init [ColorInputChange "#ff0000";
                          ColorInputChange "#ff0000";
                          ColorInputChange "#00ff00"])
  = ["#00ff00"; "#ff0000"; "#3b82f6"].
Proof.
  assert (H : "#ff0000" ≠ "#00ff00") by done.
  split; [exact H|].
  exact (C3_select_A_A_B "#ff0000" "#00ff00" H).
Defined.

(** ** C4: the history invariant *)

(** C4: after any sequence of [use] calls on the seeded history, the history
    has at most 10 entries, no entry occurs twice, and the colour of the last
    call is at index 0. *)
Theorem C4_history_invariant (colors : list string) :
  length (recentColors (useAll colors init)) ≤ 10 ∧
  NoDup (recentColors (useAll colors init)) ∧
  ∀ c : string, recentColors (useAll (colors ++ [c]) init) !! 0 = Some c.
Proof.
  destruct (useAll_invariant colors init) as [Hlen Hnd].
  { simpl. lia. }
  { apply NoDup_singleton. }
  split_and!; [done..|].
  intros c. by rewrite useAll_snoc.
Qed.

(** ** C5: dragging paints, whatever modifier is held *)

(** C5: while a gesture is in progress, a move into a cell (pointer or touch,
    with or without the alternate modifier) paints that cell with the selected
    colour, changes no other entry and removes none; after the drag of the
    scenario and the attempted erase-by-drag, cell (0,1) is still painted. *)
Theorem C5_drag_always_paints (s : State) (x y : nat) (shiftKey : bool)
    (touches : nat) :
  isDrawing s = true →
  (∀ s' : State,
      s' = step s (CellMouseEnter x y shiftKey) ∨
      s' = step s (CellTouchMove x y touches) →
      JSMap.get (getPixelKey x y) (pixels s') = Some (selectedColor s) ∧
      (∀ k, k ≠ getPixelKey x y →
            JSMap.get k (pixels s') = JSMap.get k (pixels s)) ∧
      (∀ k, is_Some (JSMap.get k (pixels s)) →
            is_Some (JSMap.get k (pixels s'))) ∧
      isDrawing s' = true) ∧
  JSMap.get (getPixelKey 0 1) (pixels (run init drag_pointer)) = Some "#000000" ∧
  JSMap.get (getPixelKey 0 1) (pixels (run init drag_touch)) = Some "#000000".
Proof.
  intros Hd. split; [|split; reflexivity].
  intros s' Hs'.
  assert (Hs : s' = addToRecentColors (selectedColor s)
                 (setPixels (JSMap.set (getPixelKey x y) (selectedColor s)
                                       (pixels s)) s)).
  { destruct Hs' as [->| ->]; simpl;
      unfold handlePixelMouseEnter, handleTouchMove; by rewrite Hd. }
  subst s'. simpl. split_and!.
  - apply get_set_eq.
  - intros k Hk. by apply get_set_ne.
  - intros k Hk. destruct (decide (k = getPixelKey x y)) as [->|Hne].
    + by rewrite get_set_eq.
    + by rewrite get_set_ne.
  - done.
Qed.

Lemma C5_drag_always_paints_witness :
  isDrawing (handleMouseDown init) = true ∧
  JSMap.get (getPixelKey 0 1)
            (pixels (step (handleMouseDown init) (CellMouseEnter 0 1 true)))
  = Some "#3b82f6".
Proof.
  assert (H : isDrawing (handleMouseDown init) = true) by reflexivity.
  split; [exact H|].
  destruct (C5_drag_always_paints (handleMouseDown init) 0 1 true 2 H)
    as [Hgen _].
  destruct (Hgen (step (handleMouseDown init) (CellMouseEnter 0 1 true)))
    as [Hget _]; [by left|].
  exact Hget.
Defined.

(** ** C6: an activation with the alternate modifier erases *)

(** C6: a shift-click on a cell, or a touch start on it with more than one
    contact, removes the entry of that cell, leaves every other entry as it
    is, and leaves the colour history unchanged. *)
Theorem C6_alternate_activation_erases (s : State) (x y touches : nat) :
  1 < touches →
  ∀ s' : State,
    s' = step s (CellClick x y true) ∨
    s' = step s (CellTouchStart x y touches) →
    JSMap.get (getPixelKey x y) (pixels s') = None ∧
    JSMap.to_gmap (pixels s')
      = delete (getPixelKey x y) (JSMap.to_gmap (pixels s)) ∧
    (∀ k, k ≠ getPixelKey x y →
          JSMap.get k (pixels s') = JSMap.get k (pixels s)) ∧
    recentColors s' = recentColors s ∧
    selectedColor s' = selectedColor s.
Proof.
  intros Ht s' Hs'.
  assert (Hp : pixels s' = JSMap.delete (getPixelKey x y) (pixels s) ∧
               recentColors s' = recentColors s ∧
               selectedColor s' = selectedColor s).
  { destruct Hs' as [->| ->]; simpl; [done|].
    unfold handleTouchClick. by rewrite bool_decide_eq_true_2. }
  destruct Hp as (-> & Hr & Hc). split_and!; try done.
  - apply get_delete_eq.
  - apply to_gmap_delete.
  - intros k Hk. by apply get_delete_ne.
Qed.

Lemma C6_alternate_activation_erases_witness :
  1 < 2 ∧
  JSMap.get (getPixelKey 0 0)
            (pixels (step painted_00_then_11 (CellTouchStart 0 0 2))) = None ∧
  recentColors (step painted_00_then_11 (CellTouchStart 0 0 2))
  = recentColors painted_00_then_11.
Proof.
  assert (H : 1 < 2) by lia.
  split; [exact H|].
  destruct (C6_alternate_activation_erases painted_00_then_11 0 0 2 H
              (step painted_00_then_11 (CellTouchStart 0 0 2)))
    as (Hget & _ & _ & Hrec & _); [by right|].
  split; [exact Hget | exact Hrec].
Defined.

(** ** C7: the 4×4 scenario *)

(** C7: on a 4×4 grid, painting (0,0) red, painting (1,1) green and erasing
    (0,0) leaves the single entry (1,1) ↦ #00ff00; the vector export declares
    a 40×40 canvas and holds exactly one rectangle, at (10,10), of size 10×10,
    filled #00ff00. *)
Theorem C7_scenario_4x4 :
  pixels scenario_4x4 = [(getPixelKey 1 1, "#00ff00")] ∧
  JSMap.to_gmap (pixels scenario_4x4) = kmap cellKey {[ (1, 1) := "#00ff00" ]} ∧
  svgRects (pixels scenario_4x4) = [rectText 10 10 "#00ff00"] ∧
  payload (downloadAsSVG scenario_4x4)
  = "<svg width=" +:+ dq +:+ "40" +:+ dq +:+
    " height=" +:+ dq +:+ "40" +:+ dq +:+
    " xmlns=" +:+ dq +:+ "http://www.w3.org/2000/svg" +:+ dq +:+ ">" +:+
    "<rect x=" +:+ dq +:+ "10" +:+ dq +:+ " y=" +:+ dq +:+ "10" +:+ dq +:+
    " width=" +:+ dq +:+ "10" +:+ dq +:+ " height=" +:+ dq +:+ "10" +:+ dq +:+
    " fill=" +:+ dq +:+ "#00ff00" +:+ dq +:+ "/>" +:+
    "</svg>".
Proof.
  split_and!; [reflexivity | | reflexivity | reflexivity].
  rewrite kmap_singleton. reflexivity.
Qed.

(** ** C8: the store is the left-to-right reduction of the operations *)

Section Refinement.

Lemma represents_op (s : State) (m : gmap (nat * nat) string) (op : GridOp) :
  represents s m → represents (run s (events_of_op op)) (spec_apply m op).
Proof.
  unfold represents. intros Hs. destruct op as [x y color | x y]; simpl.
  - rewrite to_gmap_set, Hs. by rewrite (kmap_insert cellKey m (x, y)).
  - rewrite to_gmap_delete, Hs. by rewrite (kmap_delete cellKey m (x, y)).
Qed.

Lemma represents_ops (ops : list GridOp) (s : State)
    (m : gmap (nat * nat) string) :
  represents s m →
  represents (run s (events_of_ops ops)) (fold_left spec_apply ops m).
Proof.
  revert s m. induction ops as [|op ops IH]; intros s m Hs; [done|].
  unfold events_of_ops. rewrite bind_cons, run_app. simpl.
  apply IH. by apply represents_op.
Qed.

Lemma represents_lookup (s : State) (m : gmap (nat * nat) string) (x y : nat) :
  represents s m → JSMap.get (getPixelKey x y) (pixels s) = m !! (x, y).
Proof.
  unfold represents. intros Hs. rewrite get_to_gmap, Hs.
  apply (lookup_kmap cellKey m (x, y)).
Qed.

End Refinement.

(** C8: for every sequence of paint and erase operations applied to the
    initially empty grid, the store, read as a mapping, is the left-to-right
    reduction of the sequence with insert-or-overwrite for a paint and delete
    for an erase, on a mapping keyed by coordinate: the store's keys are the
    keys of the reduction's cells and every cell reads the same in both. *)
Theorem C8_store_is_fold (ops : list GridOp) :
  JSMap.to_gmap (pixels (run init (events_of_ops ops)))
    = kmap cellKey (spec_reduce ops) ∧
  ∀ x y : nat,
    JSMap.get (getPixelKey x y) (pixels (run init (events_of_ops ops)))
    = spec_reduce ops !! (x, y).
Proof.
  assert (H : represents (run init (events_of_ops ops)) (spec_reduce ops)).
  { apply represents_ops. unfold represents. simpl. by rewrite kmap_empty. }
  split; [exact H|]. intros x y. by apply represents_lookup.
Qed.

(** ** C9: clear, then export *)

(** C9: the clear command empties the store and keeps the geometry; the
    vector export that follows is the root element declaring width W·10 and
    height H·10, closed at once with no rectangle in it, and the raster export, when the host provides the
    canvas, its context and the encoded blob, is a (W·10)×(H·10) canvas with
    no fill. *)
Theorem C9_clear_then_export (s : State) (host : Host) :
  let s' := step s ClearClick in
  let W := width (gridSize s) in
  let H := height (gridSize s) in
  pixels s' = JSMap.empty ∧
  gridSize s' = gridSize s ∧
  svgRects (pixels s') = [] ∧
  payload (downloadAsSVG s') = svgOpen (W * 10) (H * 10) +:+ "</svg>" ∧
  payload (downloadAsSVG s')
  = "<svg width=" +:+ dq +:+ nat_to_string (W * 10) +:+ dq +:+
    " height=" +:+ dq +:+ nat_to_string (H * 10) +:+ dq +:+
    " xmlns=" +:+ dq +:+ "http://www.w3.org/2000/svg" +:+ dq +:+ ">" +:+
    "</svg>" ∧
  drawCanvas s' = mkCanvas (W * 10) (H * 10) [] ∧
  downloadAsPNG host s'
  = if canvasRef_current host && getContext_2d host && toBlob_result host
    then Some (mkDownload (mkCanvas (W * 10) (H * 10) [])
                          "pixel-art.png" "image/png")
    else None.
Proof.
  cbn zeta.
  assert (Hdoc : payload (downloadAsSVG (step s ClearClick))
                 = svgOpen (width (gridSize s) * 10) (height (gridSize s) * 10)
                   +:+ "</svg>") by done.
  split_and!; try done.
  - rewrite Hdoc. unfold svgOpen. by rewrite !string_app_assoc.
  - unfold downloadAsPNG.
    by destruct (canvasRef_current host), (getContext_2d host),
                (toBlob_result host).
Qed.

(** ** C10: keys decode to the cell they encode *)

(** C10: splitting the key of cell (x, y) at the dash and parsing the parts
    gives back x and y; so for a cell painted with colour c the vector export
    contains the rectangle element at (x·10, y·10) filled with c, and the
    raster export fills the 10×10 square at (x·10, y·10) with c. *)
Theorem C10_key_roundtrip (x y : nat) :
  split "-"%char (getPixelKey x y) = [nat_to_string x; nat_to_string y] ∧
  parseKey (getPixelKey x y) = (Num x, Num y) ∧
  ∀ (s : State) (c : string),
    JSMap.get (getPixelKey x y) (pixels s) = Some c →
    (∃ before after : string,
        payload (downloadAsSVG s)
        = before +:+ rectText (x * 10) (y * 10) c +:+ after) ∧
    mkFillRect c (Num (x * 10)) (Num (y * 10)) 10 10 ∈ fills (drawCanvas s).
Proof.
  split_and!; [apply split_getPixelKey | apply parseKey_getPixelKey |].
  intros s c Hget. apply get_Some_elem in Hget. split.
  - change (payload (downloadAsSVG s)) with (svgContent s).
    rewrite svgContent_rects.
    apply list_elem_of_split in Hget as (m1 & m2 & ->).
    unfold svgRects. rewrite fmap_app, fmap_cons, flat_app, flat_cons.
    cbn [fst snd]. rewrite svgRect_getPixelKey.
    exists (svgOpen (width (gridSize s) * 10) (height (gridSize s) * 10)
            +:+ flat ((λ kv, svgRect kv.2 kv.1) <$> m1)),
           (flat ((λ kv, svgRect kv.2 kv.1) <$> m2) +:+ "</svg>").
    by rewrite !string_app_assoc.
  - rewrite drawCanvas_fills, <- canvasFill_getPixelKey.
    by apply (list_elem_of_fmap_2 (λ kv, canvasFill kv.2 kv.1) _ _ Hget).
Qed.

Lemma C10_key_roundtrip_witness :
  JSMap.get (getPixelKey 1 1) (pixels scenario_4x4) = Some "#00ff00" ∧
  mkFillRect "#00ff00" (Num (1 * 10)) (Num (1 * 10)) 10 10
    ∈ fills (drawCanvas scenario_4x4).
Proof.
  assert (H : JSMap.get (getPixelKey 1 1) (pixels scenario_4x4) = Some "#00ff00")
    by reflexivity.
  split; [exact H|].
  destruct (C10_key_roundtrip 1 1) as (_ & _ & Hexp).
  destruct (Hexp scenario_4x4 "#00ff00" H) as [_ Hfill].
  exact Hfill.
Defined.

(** * Further properties of the component *)

(** ** The recent-colour list *)

Section HistoryMore.

Implicit Types (c : string) (h : list string).

Lemma filter_ne_id c h : c ∉ h → filter (λ x, x ≠ c) h = h.
Proof.
  induction h as [|d h IH]; [done|].
  intros [Hd Hh]%not_elem_of_cons.
  rewrite filter_ne_cons, decide_False by done. by rewrite IH.
Qed.

Lemma filter_ne_not_elem c h : c ∉ filter (λ x, x ≠ c) h.
Proof. rewrite list_elem_of_filter. by intros [? _]. Qed.

Lemma recentUpdate_unfold c h :
  recentUpdate c h = c :: take 9 (filter (λ x, x ≠ c) h).
Proof. done. Qed.

Lemma recentUpdate_twice c h :
  recentUpdate c (recentUpdate c h) = recentUpdate c h.
Proof.
  rewrite !recentUpdate_unfold.
  set (t := take 9 (filter (λ x, x ≠ c) h)).
  assert (Hc : c ∉ t).
  { intros Hin. apply (filter_ne_not_elem c h).
    by apply (subseteq_take 9). }
  rewrite filter_ne_cons, decide_True, filter_ne_id by done.
  f_equal. apply take_ge. unfold t. rewrite length_take. lia.
Qed.

End HistoryMore.

(** X1: using the colour that was used last changes nothing: the history
    after two consecutive uses of a colour is the history after one, and
    picking the same colour twice in the colour input leaves the state of the
    first pick. *)
Theorem X1_use_twice (c : string) (s : State) :
  recentColors (addToRecentColors c (addToRecentColors c s))
  = recentColors (addToRecentColors c s) ∧
  step (step s (ColorInputChange c)) (ColorInputChange c)
  = step s (ColorInputChange c).
Proof.
  split; simpl.
  - apply recentUpdate_twice.
  - unfold handleColorChange, addToRecentColors, setRecentColors,
      setSelectedColor. simpl. by rewrite recentUpdate_twice.
Qed.

(** X2: using a colour that is not in the history puts it in front of the
    first nine entries; an entry at index 9 or later is dropped, the others
    keep their order. *)
Theorem X2_new_color_evicts_oldest (c : string) (h : list string) :
  c ∉ h →
  recentUpdate c h = c :: take 9 h ∧
  (∀ i d, i < 9 → h !! i = Some d → recentUpdate c h !! S i = Some d) ∧
  (∀ d, h !! 9 = Some d → NoDup h → d ∉ recentUpdate c h).
Proof.
  intros Hc.
  assert (Heq : recentUpdate c h = c :: take 9 h).
  { by rewrite recentUpdate_unfold, filter_ne_id. }
  rewrite Heq. split_and!; [done| |].
  - intros i d Hi Hd. simpl. by rewrite lookup_take_lt.
  - intros d Hd Hnd [->|Hin]%elem_of_cons.
    + apply Hc. by apply list_elem_of_lookup_2 in Hd.
    + apply elem_of_take in Hin as (i & Hi & Hlt).
      assert (i = 9) by (by eapply NoDup_lookup). lia.
Qed.

Lemma X2_new_color_evicts_oldest_witness :
("k" ∉ ["a"; "b"; "c"; "d"; "e"; "f"; "g"; "h"; "i"; "j"]) ∧
  recentUpdate "k" ["a"; "b"; "c"; "d"; "e"; "f"; "g"; "h"; "i"; "j"]
  = ["k"; "a"; "b"; "c"; "d"; "e"; "f"; "g"; "h"; "i"].
Proof.
  assert (H : "k" ∉ ["a"; "b"; "c"; "d"; "e"; "f"; "g"; "h"; "i"; "j"]).
  { apply (bool_decide_unpack _). vm_compute. exact I. }
  split; [exact H|].
  exact (proj1 (X2_new_color_evicts_oldest "k" _ H)).
Defined.

(** X3: using a colour that is already in a duplicate-free history of at
    most ten entries only moves it to the front: no entry is lost, the length
    is unchanged, and the other entries keep their relative order. *)
Theorem X3_known_color_moves_to_front (c : string) (h : list string) :
  c ∈ h → NoDup h → length h ≤ 10 →
  recentUpdate c h = c :: filter (λ x, x ≠ c) h ∧
  recentUpdate c h ≡ₚ h ∧
  length (recentUpdate c h) = length h.
Proof.
  intros Hc Hnd Hlen.
  assert (Hp : c :: filter (λ x, x ≠ c) h ≡ₚ h).
  { apply elem_of_Permutation in Hc as [k Hk].
    rewrite Hk in Hnd. apply NoDup_cons in Hnd as [Hck _].
    rewrite Hk at 2. apply Permutation_skip.
    rewrite Hk, filter_ne_cons, decide_True by done. by rewrite filter_ne_id. }
  assert (Heq : recentUpdate c h = c :: filter (λ x, x ≠ c) h).
  { rewrite recentUpdate_unfold. f_equal. apply take_ge.
    apply Permutation_length in Hp. simpl in Hp. lia. }
  rewrite Heq. split_and!; [done | done | by apply Permutation_length].
Qed.

Lemma X3_known_color_moves_to_front_witness :
  "b" ∈ ["a"; "b"; "c"] ∧ NoDup ["a"; "b"; "c"] ∧ length ["a"; "b"; "c"] ≤ 10 ∧
  recentUpdate "b" ["a"; "b"; "c"] = ["b"; "a"; "c"].
Proof.
  assert (H1 : "b" ∈ ["a"; "b"; "c"])
    by (apply (bool_decide_unpack _); vm_compute; exact I).
  assert (H2 : NoDup ["a"; "b"; "c"])
    by (apply (bool_decide_unpack _); vm_compute; exact I).
  assert (H3 : length ["a"; "b"; "c"] ≤ 10) by (simpl; lia).
  split_and!; [exact H1 | exact H2 | exact H3 |].
  exact (proj1 (X3_known_color_moves_to_front "b" _ H1 H2 H3)).
Defined.

(** ** The store under the handlers *)

Section StoreMore.

Implicit Types (m : JSMap.t) (k v : string).

Lemma delete_absent k m : JSMap.get k m = None → JSMap.delete k m = m.
Proof.
  induction m as [|[k' v'] m IH]; simpl; [done|].
  destruct (decide (k' = k)); [done|]. intros H. by rewrite IH.
Qed.

Lemma set_same k v m : JSMap.get k m = Some v → JSMap.set k v m = m.
Proof.
  induction m as [|[k' v'] m IH]; simpl; [done|].
  destruct (decide (k' = k)) as [->|Hne].
  - by intros [= ->].
  - intros H. by rewrite IH.
Qed.

Lemma set_absent k v m : JSMap.get k m = None → JSMap.set k v m = m ++ [(k, v)].
Proof.
  induction m as [|[k' v'] m IH]; simpl; [done|].
  destruct (decide (k' = k)); [done|]. intros H. by rewrite IH.
Qed.

Lemma set_present_keys k v m :
  is_Some (JSMap.get k m) → (JSMap.set k v m).*1 = (m.*1).
Proof.
  induction m as [|[k' v'] m IH]; simpl.
  - by intros [? ?].
  - destruct (decide (k' = k)) as [->|Hne]; [done|].
    intros H. rewrite !fmap_cons. by rewrite IH.
Qed.

Lemma get_None_keys k m : JSMap.get k m = None ↔ k ∉ m.*1.
Proof.
  rewrite get_to_gmap. unfold JSMap.to_gmap.
  symmetry. apply not_elem_of_list_to_map.
Qed.

Lemma size_set k v m :
  JSMap.size (JSMap.set k v m)
  = if JSMap.get k m is Some _ then JSMap.size m else S (JSMap.size m).
Proof.
  unfold JSMap.size. destruct (JSMap.get k m) as [c|] eqn:Hg.
  - rewrite <- !(length_fmap fst). by rewrite set_present_keys by (by rewrite Hg).
  - rewrite set_absent by done. rewrite length_app. simpl. lia.
Qed.

Lemma size_delete k m :
  JSMap.wf m →
  JSMap.size (JSMap.delete k m)
  = if JSMap.get k m is Some _ then JSMap.size m - 1 else JSMap.size m.
Proof.
  unfold JSMap.size, JSMap.wf.
  induction m as [|[k' v'] m IH]; [done|].
  rewrite fmap_cons. intros [Hk' Hm]%NoDup_cons. cbn [fst] in Hk'.
  cbn [JSMap.delete JSMap.get length].
  destruct (decide (k' = k)) as [->|Hne].
  - apply get_None_keys in Hk'. rewrite delete_absent by done. lia.
  - cbn [length]. rewrite IH by done.
    destruct (JSMap.get k m) eqn:Hg; [|done].
    apply get_Some_elem in Hg. destruct m; [by apply elem_of_nil in Hg|].
    simpl. lia.
Qed.

Lemma set_at_index k v old m i :
  JSMap.wf m → m !! i = Some (k, old) → JSMap.set k v m = <[i := (k, v)]> m.
Proof.
  unfold JSMap.wf. revert i.
  induction m as [|[k' v'] m IH]; intros i; [done|].
  rewrite fmap_cons. intros [Hk' Hm]%NoDup_cons. cbn [fst] in Hk'.
  cbn [JSMap.set]. destruct i as [|i]; simpl.
  - intros [= -> ->]. by rewrite decide_True.
  - intros Hi. rewrite decide_False.
    + by rewrite (IH i).
    + intros ->. apply Hk'.
      by apply list_elem_of_lookup_2, (list_elem_of_fmap_2 fst) in Hi.
Qed.

End StoreMore.

(** X4: distinct cells never share a key: [getPixelKey] is injective on
    pairs of natural numbers (so (1,11) and (11,1) cannot collide). *)
Theorem X4_getPixelKey_injective (x y x' y' : nat) :
  getPixelKey x y = getPixelKey x' y' ↔ x = x' ∧ y = y'.
Proof.
  split; [apply getPixelKey_inj | by intros [-> ->]].
Qed.

(** X5: a shift-click on an unpainted cell changes nothing at all, and a
    multi-touch start on it changes nothing but the drawing flag. *)
Theorem X5_erase_unpainted_is_noop (s : State) (x y touches : nat) :
  JSMap.get (getPixelKey x y) (pixels s) = None → 1 < touches →
  step s (CellClick x y true) = s ∧
  step s (CellTouchStart x y touches) = handleMouseDown s.
Proof.
  intros Hg Ht. simpl. unfold handlePixelClick, handleTouchClick.
  rewrite bool_decide_eq_true_2 by done. simpl.
  rewrite delete_absent by done. by destruct s.
Qed.

Lemma X5_erase_unpainted_is_noop_witness :
  JSMap.get (getPixelKey 3 3) (pixels init) = None ∧ 1 < 2 ∧
  step init (CellClick 3 3 true) = init.
Proof.
  assert (H1 : JSMap.get (getPixelKey 3 3) (pixels init) = None) by reflexivity.
  assert (H2 : 1 < 2) by lia.
  split_and!; [exact H1 | exact H2 |].
  exact (proj1 (X5_erase_unpainted_is_noop init 3 3 2 H1 H2)).
Defined.

(** X6: clicking a cell twice is the same as clicking it once: the second
    plain click leaves the store, the history and everything else as the first
    one left them. *)
Theorem X6_paint_twice (s : State) (x y : nat) :
  step (step s (CellClick x y false)) (CellClick x y false)
  = step s (CellClick x y false).
Proof.
  simpl. unfold handlePixelClick, setPixels, addToRecentColors, setRecentColors.
  simpl. rewrite recentUpdate_twice.
  by rewrite (set_same _ _ (JSMap.set _ _ _)) by apply get_set_eq.
Qed.

(** X7: the painted-pixel count shown in the side bar grows by one when an
    unpainted cell is clicked and stays the same when a painted cell is
    clicked; a shift-click lowers it by one on a painted cell and leaves it on
    an unpainted one. *)
Theorem X7_pixel_count (s : State) (x y : nat) :
  JSMap.wf (pixels s) →
  let painted := JSMap.get (getPixelKey x y) (pixels s) in
  JSMap.size (pixels (step s (CellClick x y false)))
  = (if painted is Some _ then JSMap.size (pixels s)
     else S (JSMap.size (pixels s))) ∧
  JSMap.size (pixels (step s (CellClick x y true)))
  = (if painted is Some _ then JSMap.size (pixels s) - 1
     else JSMap.size (pixels s)).
Proof.
  intros Hwf. simpl. split; [apply size_set | by apply size_delete].
Qed.

Lemma X7_pixel_count_witness :
  JSMap.wf (pixels painted_00_then_11) ∧
  JSMap.size (pixels (step painted_00_then_11 (CellClick 0 0 true))) = 1.
Proof.
  assert (H : JSMap.wf (pixels painted_00_then_11))
    by (apply (bool_decide_unpack _); vm_compute; exact I).
  split; [exact H|].
  exact (proj2 (X7_pixel_count painted_00_then_11 0 0 H)).
Defined.

(** X8: a cell that was unpainted when it is clicked becomes the last entry
    of the store, so its square is the last rectangle of the vector document
    and the last fill of the raster export. *)
Theorem X8_new_cell_is_drawn_last (s : State) (x y : nat) :
  JSMap.get (getPixelKey x y) (pixels s) = None →
  let s' := step s (CellClick x y false) in
  pixels s' = pixels s ++ [(getPixelKey x y, selectedColor s)] ∧
  svgRects (pixels s')
  = svgRects (pixels s) ++ [rectText (x * 10) (y * 10) (selectedColor s)] ∧
  fills (drawCanvas s')
  = fills (drawCanvas s)
    ++ [mkFillRect (selectedColor s) (Num (x * 10)) (Num (y * 10)) 10 10].
Proof.
  intros Hg. cbn zeta.
  assert (Hp : pixels (step s (CellClick x y false))
               = pixels s ++ [(getPixelKey x y, selectedColor s)]).
  { simpl. by apply set_absent. }
  rewrite !drawCanvas_fills, Hp. unfold svgRects. rewrite !fmap_app.
  cbn [fmap list_fmap fst snd].
  by rewrite svgRect_getPixelKey, canvasFill_getPixelKey.
Qed.

Lemma X8_new_cell_is_drawn_last_witness :
  JSMap.get (getPixelKey 2 1) (pixels painted_00_then_11) = None ∧
  pixels (step painted_00_then_11 (CellClick 2 1 false))
  = pixels painted_00_then_11 ++ [(getPixelKey 2 1, "#3b82f6")].
Proof.
  assert (H : JSMap.get (getPixelKey 2 1) (pixels painted_00_then_11) = None)
    by reflexivity.
  split; [exact H|].
  exact (proj1 (X8_new_cell_is_drawn_last painted_00_then_11 2 1 H)).
Defined.

(** X9: clicking a cell that is already painted overwrites its colour in
    place: the entry keeps its index in the store, so only that rectangle of
    the vector document changes and the drawing order of the cells is as
    before. *)
Theorem X9_repaint_keeps_position (s : State) (x y i : nat) (old : string) :
  JSMap.wf (pixels s) →
  pixels s !! i = Some (getPixelKey x y, old) →
  let s' := step s (CellClick x y false) in
  pixels s' = <[i := (getPixelKey x y, selectedColor s)]> (pixels s) ∧
  svgRects (pixels s')
  = <[i := rectText (x * 10) (y * 10) (selectedColor s)]> (svgRects (pixels s)) ∧
  (pixels s').*1 = (pixels s).*1.
Proof.
  intros Hwf Hi. cbn zeta.
  assert (Hp : pixels (step s (CellClick x y false))
               = <[i := (getPixelKey x y, selectedColor s)]> (pixels s)).
  { simpl. by apply (set_at_index _ _ old). }
  split_and!; [done | |].
  - rewrite Hp. unfold svgRects.
    rewrite (list_fmap_insert (λ kv, svgRect kv.2 kv.1) (pixels s) i).
    cbn [fst snd]. by rewrite svgRect_getPixelKey.
  - simpl. apply set_present_keys.
    apply list_elem_of_lookup_2 in Hi.
    destruct (JSMap.get (getPixelKey x y) (pixels s)) eqn:Hg; [done|].
    apply get_None_keys in Hg. destruct Hg.
    by apply (list_elem_of_fmap_2 fst) in Hi.
Qed.

Lemma X9_repaint_keeps_position_witness :
  JSMap.wf (pixels painted_00_then_11) ∧
  pixels painted_00_then_11 !! 0 = Some (getPixelKey 0 0, "#3b82f6") ∧
  (pixels (step (step painted_00_then_11 (ColorInputChange "#ff0000"))
                (CellClick 0 0 false))).*1
  = (pixels painted_00_then_11).*1.
Proof.
  assert (H : JSMap.wf (pixels
                (step painted_00_then_11 (ColorInputChange "#ff0000"))))
    by (apply (bool_decide_unpack _); vm_compute; exact I).
  assert (Hi : pixels (step painted_00_then_11 (ColorInputChange "#ff0000")) !! 0
               = Some (getPixelKey 0 0, "#3b82f6")) by reflexivity.
  split_and!; [exact H | exact Hi |].
  exact (proj2 (proj2 (X9_repaint_keeps_position _ 0 0 0 "#3b82f6" H Hi))).
Defined.

(** X10: a touch start with more than one contact erases the cell and also
    starts a drawing gesture, so a touch move over the same cell before the
    touch ends paints the cell again with the selected colour. *)
Theorem X10_touch_erase_then_move_repaints (s : State) (x y touches : nat) :
  1 < touches →
  let s1 := step s (CellTouchStart x y touches) in
  JSMap.get (getPixelKey x y) (pixels s1) = None ∧
  isDrawing s1 = true ∧
  ∀ touches' : nat,
    JSMap.get (getPixelKey x y)
              (pixels (step s1 (CellTouchMove x y touches')))
    = Some (selectedColor s).
Proof.
  intros Ht. cbn zeta. simpl. unfold handleTouchClick.
  rewrite bool_decide_eq_true_2 by done. simpl. split_and!.
  - apply get_delete_eq.
  - done.
  - intros _. unfold handleTouchMove. simpl. apply get_set_eq.
Qed.

Lemma X10_touch_erase_then_move_repaints_witness :
  1 < 2 ∧
  JSMap.get (getPixelKey 0 0)
    (pixels (step (step painted_00_then_11 (CellTouchStart 0 0 2))
                  (CellTouchMove 0 0 2)))
  = Some "#3b82f6".
Proof.
  assert (H : 1 < 2) by lia.
  split; [exact H|].
  exact (proj2 (proj2
    (X10_touch_erase_then_move_repaints painted_00_then_11 0 0 2 H)) 2).
Defined.

(** X11: while no gesture is in progress, pointer and touch moves over cells
    change nothing, however many there are; this is the situation after a
    mouse up, a mouse leave or a touch end. *)
Theorem X11_moves_when_idle (s : State) (events : list Event) :
  Forall is_move events →
  (isDrawing s = false → run s events = s) ∧
  run (handleMouseUp s) events = handleMouseUp s.
Proof.
  intros Hev.
  assert (Hidle : ∀ s0, isDrawing s0 = false → run s0 events = s0).
  { induction Hev as [|e events He _ IH]; intros s0 Hs0; [done|].
    simpl. assert (step s0 e = s0) as ->; [|by apply IH].
    destruct e; try done; simpl;
      unfold handlePixelMouseEnter, handleTouchMove; by rewrite Hs0. }
  split; [apply Hidle | by apply Hidle].
Qed.

Lemma X11_moves_when_idle_witness :
  Forall is_move [CellMouseEnter 0 0 true; CellTouchMove 1 1 1] ∧
  run (handleMouseUp init) [CellMouseEnter 0 0 true; CellTouchMove 1 1 1]
  = handleMouseUp init.
Proof.
  assert (H : Forall is_move [CellMouseEnter 0 0 true; CellTouchMove 1 1 1]).
  { repeat constructor. }
  split; [exact H|].
  exact (proj2 (X11_moves_when_idle init _ H)).
Defined.

(** ** The rendered grid *)

Section Grid.

Lemma fold_push {A B : Type} (f : B → A) (l : list B) (acc : list A) :
  fold_left (λ g x, g ++ [f x]) l acc = acc ++ (f <$> l).
Proof.
  revert acc. induction l as [|b l IH]; intros acc; simpl.
  - by rewrite app_nil_r.
  - by rewrite IH, <- app_assoc.
Qed.

Lemma fold_grid {A : Type} (cell : nat → nat → A) (xs ys : list nat)
    (acc : list A) :
  fold_left (λ grid y, fold_left (λ grid x, grid ++ [cell x y]) xs grid) ys acc
  = acc ++ (ys ≫= λ y, (λ x, cell x y) <$> xs).
Proof.
  revert acc. induction ys as [|y ys IH]; intros acc; cbn [fold_left].
  - by rewrite app_nil_r.
  - by rewrite fold_push, IH, bind_cons, app_assoc.
Qed.

Lemma bind_fmap_cells {A : Type} (f : nat * nat → A) (xs ys : list nat) :
  f <$> (ys ≫= λ y, (λ x, (x, y)) <$> xs)
  = ys ≫= λ y, (λ x, f (x, y)) <$> xs.
Proof.
  induction ys as [|y ys IH]; [done|].
  rewrite !bind_cons, fmap_app, IH. f_equal.
  by rewrite <- list_fmap_compose.
Qed.

Lemma renderGrid_cells (s : State) :
  renderGrid s
  = (λ c, renderCell s (pixelSize s) c.1 c.2)
    <$> gridCells (width (gridSize s)) (height (gridSize s)).
Proof.
  unfold renderGrid, gridCells. rewrite fold_grid. simpl.
  by rewrite bind_fmap_cells.
Qed.

Lemma elem_of_gridCells (w h x y : nat) :
  (x, y) ∈ gridCells w h ↔ x < w ∧ y < h.
Proof.
  unfold gridCells. rewrite list_elem_of_bind. split.
  - intros (y' & Hx & Hy). apply list_elem_of_fmap in Hx as (x' & [= -> ->] & Hx).
    apply elem_of_seq in Hx, Hy. lia.
  - intros [Hx Hy]. exists y. split.
    + apply (list_elem_of_fmap_2 (λ x, (x, y))). apply elem_of_seq. lia.
    + apply elem_of_seq. lia.
Qed.

Lemma NoDup_gridCells (w h : nat) : NoDup (gridCells w h).
Proof.
  unfold gridCells. apply NoDup_bind.
  - intros y1 y2 c _ _ (x1 & -> & _)%list_elem_of_fmap
      (x2 & [= _ ->] & _)%list_elem_of_fmap. done.
  - intros y _. apply (NoDup_fmap_2 _), NoDup_seq.
  - apply NoDup_seq.
Qed.

Lemma length_rows (w : nat) (ys : list nat) :
  length (ys ≫= λ y, (λ x, (x, y)) <$> seq 0 w) = length ys * w.
Proof.
  induction ys as [|y ys IH]; [done|].
  rewrite bind_cons, length_app, IH, length_fmap, length_seq. simpl. lia.
Qed.

Lemma lookup_rows (w h a i x : nat) :
  i < h → x < w →
  (seq a h ≫= λ y, (λ x, (x, y)) <$> seq 0 w) !! (i * w + x) = Some (x, a + i).
Proof.
  revert a i. induction h as [|h IH]; intros a i Hi Hx; [lia|].
  cbn [seq]. rewrite bind_cons. destruct i as [|i].
  - rewrite lookup_app_l by (rewrite length_fmap, length_seq; lia).
    rewrite list_lookup_fmap, lookup_seq_lt by lia. simpl.
    by rewrite Nat.add_0_r.
  - rewrite lookup_app_r by (rewrite length_fmap, length_seq; lia).
    rewrite length_fmap, length_seq.
    replace (S i * w + x - w) with (i * w + x) by lia.
    rewrite IH by lia. do 2 f_equal. lia.
Qed.

Lemma lookup_gridCells (w h x y : nat) :
  x < w → y < h → gridCells w h !! (y * w + x) = Some (x, y).
Proof. intros Hx Hy. unfold gridCells. by rewrite lookup_rows. Qed.

Lemma fmap_override {A B : Type} `{EqDecision A} (f : A → B) (a : A) (b : B)
    (l : list A) (i : nat) :
  NoDup l → l !! i = Some a →
  (λ c, if decide (c = a) then b else f c) <$> l = <[i := b]> (f <$> l).
Proof.
  intros Hnd Hi. apply list_eq. intros j.
  rewrite list_lookup_fmap.
  destruct (decide (i = j)) as [<-|Hne].
  - rewrite list_lookup_insert_eq
      by (rewrite length_fmap; by eapply lookup_lt_Some).
    rewrite Hi. simpl. by rewrite decide_True.
  - rewrite list_lookup_insert_ne, list_lookup_fmap by done.
    destruct (l !! j) as [c|] eqn:Hj; [|done]. simpl.
    rewrite decide_False; [done|].
    intros ->. apply Hne. by eapply NoDup_lookup.
Qed.

End Grid.

(** X12: the grid is rendered row by row: it has width × height cells, and
    the element at index y·width + x is the cell (x, y), with the key of that
    cell and the stored colour (or 'transparent') as background. *)
Theorem X12_grid_is_row_major (s : State) (x y : nat) :
  x < width (gridSize s) → y < height (gridSize s) →
  length (renderGrid s) = height (gridSize s) * width (gridSize s) ∧
  renderGrid s !! (y * width (gridSize s) + x)
  = Some (mkCell (getPixelKey x y) x y
                 (if isMobile s then "w-6 h-6" else "w-4 h-4")
                 (orTransparent (JSMap.get (getPixelKey x y) (pixels s)))).
Proof.
  intros Hx Hy. rewrite renderGrid_cells. split.
  - rewrite length_fmap. unfold gridCells.
    by rewrite length_rows, length_seq.
  - rewrite list_lookup_fmap, lookup_gridCells by done. done.
Qed.

Lemma X12_grid_is_row_major_witness :
  1 < width (gridSize scenario_4x4) ∧ 2 < height (gridSize scenario_4x4) ∧
  length (renderGrid scenario_4x4) = 16.
Proof.
  assert (H1 : 1 < width (gridSize scenario_4x4)) by (simpl; lia).
  assert (H2 : 2 < height (gridSize scenario_4x4)) by (simpl; lia).
  split_and!; [exact H1 | exact H2 |].
  exact (proj1 (X12_grid_is_row_major scenario_4x4 1 2 H1 H2)).
Defined.

(** X13: the rendered cells are exactly the cells inside the grid, each
    once: no two elements share a React key, and an element is rendered for
    (x, y) if and only if x < width and y < height. *)
Theorem X13_grid_cells_unique (s : State) :
  NoDup (cell_key <$> renderGrid s) ∧
  ∀ x y : nat,
    (∃ cell, cell ∈ renderGrid s ∧ cell_x cell = x ∧ cell_y cell = y)
    ↔ x < width (gridSize s) ∧ y < height (gridSize s).
Proof.
  rewrite renderGrid_cells. split.
  - rewrite <- list_fmap_compose.
    apply (NoDup_fmap_2 cellKey), NoDup_gridCells.
  - intros x y. rewrite <- elem_of_gridCells. split.
    + intros (cell & Hin & <- & <-).
      apply list_elem_of_fmap in Hin as ([x' y'] & -> & Hc). done.
    + intros Hin. eexists. split; [|split].
      * by apply (list_elem_of_fmap_2 _ _ _ Hin).
      * done.
      * done.
Qed.

Section GridUpdate.

(** Rendering after the store has changed at one cell only. *)
Lemma renderGrid_one_cell (s s' : State) (x y : nat) :
  gridSize s' = gridSize s → isMobile s' = isMobile s →
  x < width (gridSize s) → y < height (gridSize s) →
  (∀ k, k ≠ getPixelKey x y →
        JSMap.get k (pixels s') = JSMap.get k (pixels s)) →
  renderGrid s'
  = <[y * width (gridSize s) + x :=
        mkCell (getPixelKey x y) x y (pixelSize s)
               (orTransparent (JSMap.get (getPixelKey x y) (pixels s')))]>
      (renderGrid s).
Proof.
  intros Hg Hm Hx Hy Hother.
  rewrite !renderGrid_cells, Hg.
  rewrite <- (fmap_override _ (x, y)
                 (mkCell (getPixelKey x y) x y (pixelSize s)
                    (orTransparent (JSMap.get (getPixelKey x y) (pixels s')))))
    by (auto using NoDup_gridCells, lookup_gridCells).
  apply list_fmap_ext. intros _ [x' y'] _. cbn [fst snd].
  unfold pixelSize. rewrite Hm.
  destruct (decide ((x', y') = (x, y))) as [[= -> ->]|Hne]; [done|].
  unfold renderCell. rewrite Hother; [done|].
  intros Hk. apply getPixelKey_inj in Hk as [-> ->]. done.
Qed.

End GridUpdate.

(** X14: a click changes the rendering of the clicked cell only: after a
    plain click the cell shows the selected colour (a non-empty string, as the
    colour input gives), after a shift-click it shows 'transparent'; every
    other element of the rendered grid is as before. *)
Theorem X14_click_rerenders_one_cell (s : State) (x y : nat) :
  x < width (gridSize s) → y < height (gridSize s) →
  selectedColor s ≠ EmptyString →
  renderGrid (step s (CellClick x y false))
  = <[y * width (gridSize s) + x :=
        mkCell (getPixelKey x y) x y
               (if isMobile s then "w-6 h-6" else "w-4 h-4")
               (selectedColor s)]> (renderGrid s) ∧
  renderGrid (step s (CellClick x y true))
  = <[y * width (gridSize s) + x :=
        mkCell (getPixelKey x y) x y
               (if isMobile s then "w-6 h-6" else "w-4 h-4")
               "transparent"]> (renderGrid s).
Proof.
  intros Hx Hy Hc. split.
  - rewrite (renderGrid_one_cell s _ x y); try done.
    + simpl. rewrite get_set_eq. simpl. by rewrite decide_False.
    + intros k Hk. simpl. by apply get_set_ne.
  - rewrite (renderGrid_one_cell s _ x y); try done.
    + simpl. by rewrite get_delete_eq.
    + intros k Hk. simpl. by apply get_delete_ne.
Qed.

Lemma X14_click_rerenders_one_cell_witness :
  1 < width (gridSize init) ∧ 2 < height (gridSize init) ∧
  selectedColor init ≠ EmptyString ∧
  renderGrid (step init (CellClick 1 2 false))
  = <[2 * width (gridSize init) + 1 :=
        mkCell (getPixelKey 1 2) 1 2 "w-4 h-4" "#3b82f6"]> (renderGrid init).
Proof.
  assert (H1 : 1 < width (gridSize init)) by (simpl; lia).
  assert (H2 : 2 < height (gridSize init)) by (simpl; lia).
  assert (H3 : selectedColor init ≠ EmptyString) by done.
  split_and!; [exact H1 | exact H2 | exact H3 |].
  exact (proj1 (X14_click_rerenders_one_cell init 1 2 H1 H2 H3)).
Defined.

(** ** Invariants along event sequences *)

Section Reachable.

Implicit Types (P : nat → nat → Prop) (m : JSMap.t).

Lemma keys_sat_empty P : keys_sat P JSMap.empty.
Proof. intros k Hk. by apply elem_of_nil in Hk. Qed.

Lemma keys_sat_set P m (x y : nat) (v : string) :
  P x y → keys_sat P m → keys_sat P (JSMap.set (getPixelKey x y) v m).
Proof.
  intros HP Hm k Hk.
  destruct (keys_set (getPixelKey x y) v m) as [Heq|[_ Heq]];
    rewrite Heq in Hk; [by apply Hm|].
  apply elem_of_app in Hk as [Hk| ->%list_elem_of_singleton]; [by apply Hm|].
  by exists x, y.
Qed.

Lemma keys_sat_delete P m (k : string) :
  keys_sat P m → keys_sat P (JSMap.delete k m).
Proof.
  intros Hm k' Hk'. rewrite keys_delete in Hk'.
  apply list_elem_of_filter in Hk' as [_ Hk']. by apply Hm.
Qed.

Lemma keys_sat_step P (s : State) (e : Event) :
  (∀ x y, event_cell e = Some (x, y) → P x y) →
  keys_sat P (pixels s) → keys_sat P (pixels (step s e)).
Proof.
  intros He Hs. destruct e; simpl; try done.
  - unfold checkMobile. by case_bool_decide.
  - unfold swatchClick. by destruct (recentColors s !! index).
  - unfold handlePixelClick. destruct shiftKey; simpl.
    + by apply keys_sat_delete.
    + apply keys_sat_set; [by apply He | done].
  - unfold handlePixelMouseEnter. destruct (isDrawing s); [|done]. simpl.
    apply keys_sat_set; [by apply He | done].
  - unfold handleTouchClick. case_bool_decide; simpl.
    + by apply keys_sat_delete.
    + apply keys_sat_set; [by apply He | done].
  - unfold handleTouchMove. destruct (isDrawing s); [|done]. simpl.
    apply keys_sat_set; [by apply He | done].
  - apply keys_sat_empty.
Qed.

Lemma keys_sat_run P (events : list Event) (s : State) :
  Forall (λ e, ∀ x y, event_cell e = Some (x, y) → P x y) events →
  keys_sat P (pixels s) → keys_sat P (pixels (run s events)).
Proof.
  intros Hev. revert s. induction Hev as [|e events He _ IH]; intros s Hs; [done|].
  simpl. apply IH. by apply keys_sat_step.
Qed.

Lemma preset_step (s : State) (e : Event) : preset s → preset (step s e).
Proof.
  intros Hs. destruct e; simpl; try done.
  - unfold checkMobile, preset. case_bool_decide; simpl; auto.
    split; [auto | done].
  - unfold swatchClick. by destruct (recentColors s !! index).
  - unfold handlePixelClick. by destruct shiftKey.
  - unfold handlePixelMouseEnter. by destruct (isDrawing s).
  - unfold handleTouchClick. by case_bool_decide.
  - unfold handleTouchMove. by destruct (isDrawing s).
Qed.

Lemma preset_run (events : list Event) (s : State) :
  preset s → preset (run s events).
Proof.
  revert s. induction events as [|e events IH]; intros s Hs; [done|].
  simpl. by apply IH, preset_step.
Qed.

Lemma within_run (events : list Event) (s : State) :
  preset s → run_ok s events →
  keys_sat (λ x y, x < 32 ∧ y < 32) (pixels s) →
  keys_sat (λ x y, x < 32 ∧ y < 32) (pixels (run s events)).
Proof.
  revert s. induction events as [|e events IH]; intros s Hp Hok Hs; [done|].
  destruct Hok as [He Hok].
  simpl. apply IH; [by apply preset_step | done |].
  apply keys_sat_step; [|done].
  intros x y Hxy. unfold event_ok in He. rewrite Hxy in He.
  destruct Hp as [[Hg|Hg] _]; rewrite Hg in He; simpl in He; lia.
Qed.

Lemma keys_sat_size (n : nat) m :
  JSMap.wf m → keys_sat (λ x y, x < n ∧ y < n) m → JSMap.size m ≤ n * n.
Proof.
  intros Hwf Hm. unfold JSMap.size.
  rewrite <- (length_fmap fst).
  replace (n * n) with (length (cellKey <$> gridCells n n)).
  - apply submseteq_length, NoDup_submseteq; [done|].
    intros k Hk. destruct (Hm k Hk) as (x & y & [Hx Hy] & ->).
    apply (list_elem_of_fmap_2 cellKey _ (x, y)).
    by apply elem_of_gridCells.
  - rewrite length_fmap. unfold gridCells. by rewrite length_rows, length_seq.
Qed.

Lemma NoDup_positions m :
  JSMap.wf m → keys_sat (λ _ _, True) m →
  NoDup ((λ f, (rect_x f, rect_y f)) <$> ((λ kv, canvasFill kv.2 kv.1) <$> m)).
Proof.
  intros Hwf Hm.
  assert (Heq : (λ f, (rect_x f, rect_y f)) <$> ((λ kv, canvasFill kv.2 kv.1) <$> m)
                = keyPosition <$> (m.*1)).
  { rewrite <- !list_fmap_compose. apply list_fmap_ext.
    intros _ [k v] _. unfold compose, canvasFill, keyPosition. cbn [fst snd].
    by destruct (parseKey k). }
  rewrite Heq. apply NoDup_fmap_2_strong; [|done].
  intros k1 k2 H1 H2.
  destruct (Hm k1 H1) as (x1 & y1 & _ & ->).
  destruct (Hm k2 H2) as (x2 & y2 & _ & ->).
  unfold keyPosition. rewrite !parseKey_getPixelKey. simpl.
  intros [= Hx Hy]. f_equal; lia.
Qed.

End Reachable.

(** X15: whatever events arrive, in any order, the history holds between one
    and ten colours, no colour twice, and the selected colour is one of them;
    the store has no key twice, and the geometry is 16×16 or 32×32, the former
    whenever the mobile flag is set. *)
Theorem X15_session_invariant (events : list Event) :
  let s := run init events in
  1 ≤ length (recentColors s) ≤ 10 ∧
  NoDup (recentColors s) ∧
  selectedColor s ∈ recentColors s ∧
  JSMap.wf (pixels s) ∧
  (gridSize s = mkGridSize 16 16 ∨ gridSize s = mkGridSize 32 32) ∧
  (isMobile s = true → gridSize s = mkGridSize 16 16).
Proof.
  cbn zeta.
  destruct (inv_run events init (inv_initialState _)) as [Hwf Hlen Hnd Hsel].
  assert (Hp : preset (run init events)).
  { apply preset_run. split; [by left | done]. }
  split_and!; try done; [|apply Hp|apply Hp].
  destruct (recentColors (run init events)); [by apply elem_of_nil in Hsel|].
  simpl. lia.
Qed.

(** X16: when every cell event comes from a cell of the grid as rendered at
    that moment, every key of the store is the key of a cell with both
    coordinates below 32, at most 1024 cells are painted, and every fill of
    the raster export is a 10×10 square at (x·10, y·10) for such a cell. *)
Theorem X16_painted_cells_bounded (events : list Event) :
  run_ok init events →
  let s := run init events in
  keys_sat (λ x y, x < 32 ∧ y < 32) (pixels s) ∧
  JSMap.size (pixels s) ≤ 1024 ∧
  ∀ f, f ∈ fills (drawCanvas s) →
       ∃ x y, x < 32 ∧ y < 32 ∧
              f = mkFillRect (fillStyle f) (Num (x * 10)) (Num (y * 10)) 10 10.
Proof.
  intros Hok. cbn zeta.
  assert (Hk : keys_sat (λ x y, x < 32 ∧ y < 32) (pixels (run init events))).
  { apply within_run; [split; [by left | done] | done | apply keys_sat_empty]. }
  split_and!; [done | |].
  - apply (keys_sat_size 32); [|done].
    apply (inv_wf _ (inv_run events init (inv_initialState _))).
  - intros f Hf. rewrite drawCanvas_fills in Hf.
    apply list_elem_of_fmap in Hf as ([k c] & -> & Hin).
    destruct (Hk k) as (x & y & Hxy & ->).
    { by apply (list_elem_of_fmap_2 fst) in Hin. }
    exists x, y. cbn [fst snd]. rewrite canvasFill_getPixelKey.
    by destruct Hxy.
Qed.

Lemma X16_painted_cells_bounded_witness :
  run_ok init [WindowResize 1024; CellClick 31 31 false; WindowResize 500] ∧
  JSMap.size
    (pixels (run init [WindowResize 1024; CellClick 31 31 false;
                       WindowResize 500])) ≤ 1024.
Proof.
  assert (H : run_ok init [WindowResize 1024; CellClick 31 31 false;
                           WindowResize 500]).
  { simpl. unfold event_ok. simpl. repeat split; lia. }
  split; [exact H|].
  exact (proj1 (proj2 (X16_painted_cells_bounded _ H))).
Defined.

(** X17: shrinking the window does not touch the store: a cell painted on the
    32×32 grid at a column or row of 16 or more stays in the store when the
    grid becomes 16×16; it is no longer rendered, and the raster export still
    issues its fill, on a canvas of 160×160. *)
Theorem X17_shrink_keeps_hidden_cells (s : State) (x y innerWidth : nat)
    (c : string) :
  JSMap.get (getPixelKey x y) (pixels s) = Some c →
  innerWidth < 768 →
  16 ≤ x ∨ 16 ≤ y →
  let s' := step s (WindowResize innerWidth) in
  gridSize s' = mkGridSize 16 16 ∧
  pixels s' = pixels s ∧
  (∀ cell, cell ∈ renderGrid s' → cell_key cell ≠ getPixelKey x y) ∧
  mkFillRect c (Num (x * 10)) (Num (y * 10)) 10 10 ∈ fills (drawCanvas s') ∧
  canvas_width (drawCanvas s') = 160 ∧ canvas_height (drawCanvas s') = 160.
Proof.
  intros Hg Hw Hxy. cbn zeta.
  assert (Hs : step s (WindowResize innerWidth)
               = setGridSize (mkGridSize 16 16) (setIsMobile true s)).
  { simpl. unfold checkMobile. by rewrite !bool_decide_eq_true_2. }
  rewrite Hs. split_and!; try done.
  - intros cell Hin Hkey. rewrite renderGrid_cells in Hin.
    apply list_elem_of_fmap in Hin as ([x' y'] & -> & Hc).
    apply elem_of_gridCells in Hc. simpl in Hc, Hkey.
    apply getPixelKey_inj in Hkey. lia.
  - rewrite drawCanvas_fills, <- canvasFill_getPixelKey.
    apply get_Some_elem in Hg.
    by apply (list_elem_of_fmap_2 (λ kv, canvasFill kv.2 kv.1) _ _ Hg).
Qed.

Lemma X17_shrink_keeps_hidden_cells_witness :
  JSMap.get (getPixelKey 20 3)
    (pixels (run init [WindowResize 1024; CellClick 20 3 false]))
  = Some "#3b82f6" ∧
  500 < 768 ∧ (16 ≤ 20 ∨ 16 ≤ 3) ∧
  pixels (run init [WindowResize 1024; CellClick 20 3 false; WindowResize 500])
  = pixels (run init [WindowResize 1024; CellClick 20 3 false]).
Proof.
  assert (H1 : JSMap.get (getPixelKey 20 3)
                 (pixels (run init [WindowResize 1024; CellClick 20 3 false]))
               = Some "#3b82f6") by reflexivity.
  assert (H2 : 500 < 768) by lia.
  assert (H3 : 16 ≤ 20 ∨ 16 ≤ 3) by (left; lia).
  split_and!; [exact H1 | exact H2 | exact H3 |].
  exact (proj1 (proj2 (X17_shrink_keeps_hidden_cells _ 20 3 500 _ H1 H2 H3))).
Defined.

(** X18: the two exports describe the same drawing: the rectangle elements
    of the vector document are the fills of the raster export, one by one and
    in the same order, with the same position, size and colour; there is one
    per entry of the store; and the root element of the document declares as
    width and height the width and height of the canvas, which are ten times
    those of the grid. *)
Theorem X18_exports_agree (s : State) :
  svgRects (pixels s) = rectOfFill <$> fills (drawCanvas s) ∧
  length (fills (drawCanvas s)) = JSMap.size (pixels s) ∧
  payload (downloadAsSVG s)
  = svgOpen (canvas_width (drawCanvas s)) (canvas_height (drawCanvas s))
    +:+ flat (rectOfFill <$> fills (drawCanvas s)) +:+ "</svg>" ∧
  payload (downloadAsSVG s)
  = ("<svg width=" +:+ dq +:+ nat_to_string (canvas_width (drawCanvas s))
       +:+ dq +:+
     " height=" +:+ dq +:+ nat_to_string (canvas_height (drawCanvas s))
       +:+ dq +:+
     " xmlns=" +:+ dq +:+ "http://www.w3.org/2000/svg" +:+ dq +:+ ">")
    +:+ flat (rectOfFill <$> fills (drawCanvas s)) +:+ "</svg>" ∧
  canvas_width (drawCanvas s) = width (gridSize s) * 10 ∧
  canvas_height (drawCanvas s) = height (gridSize s) * 10.
Proof.
  assert (Hr : svgRects (pixels s) = rectOfFill <$> fills (drawCanvas s)).
  { rewrite drawCanvas_fills, <- list_fmap_compose. unfold svgRects.
    apply list_fmap_ext. intros _ [k c] _.
    unfold compose, svgRect, canvasFill, rectOfFill. cbn [fst snd].
    by destruct (parseKey k). }
  assert (Hdoc : payload (downloadAsSVG s)
                 = svgOpen (canvas_width (drawCanvas s))
                           (canvas_height (drawCanvas s))
                   +:+ flat (rectOfFill <$> fills (drawCanvas s)) +:+ "</svg>").
  { change (payload (downloadAsSVG s)) with (svgContent s).
    by rewrite svgContent_rects, Hr. }
  split_and!; [done | | done | | done | done].
  - by rewrite drawCanvas_fills, length_fmap.
  - rewrite Hdoc. reflexivity.
Qed.

(** X19: whatever events arrive, the raster export never fills the same
    square twice: the positions of its fills are pairwise distinct, so the
    result does not depend on the order of the fills. *)
Theorem X19_fills_are_disjoint (events : list Event) :
  NoDup ((λ f, (rect_x f, rect_y f)) <$> fills (drawCanvas (run init events))).
Proof.
  rewrite drawCanvas_fills. apply NoDup_positions.
  - apply (inv_wf _ (inv_run events init (inv_initialState _))).
  - apply keys_sat_run; [|apply keys_sat_empty].
    apply Forall_forall. by intros.
Qed.

(** ** Sequences of clicks and moves *)

Section Strokes.

Lemma enter_painting (s : State) (x y : nat) (shiftKey : bool) :
  isDrawing s = true →
  step s (CellMouseEnter x y shiftKey)
  = addToRecentColors (selectedColor s)
      (setPixels (JSMap.set (getPixelKey x y) (selectedColor s) (pixels s)) s).
Proof. intros Hd. simpl. unfold handlePixelMouseEnter. by rewrite Hd. Qed.

Lemma drag_get (cells : list (nat * nat)) (shiftKey : bool) (s : State)
    (k : string) :
  isDrawing s = true →
  JSMap.get k
    (pixels (run s ((λ c, CellMouseEnter c.1 c.2 shiftKey) <$> cells)))
  = if decide (k ∈ cellKey <$> cells) then Some (selectedColor s)
    else JSMap.get k (pixels s).
Proof.
  revert s. induction cells as [|[x y] cells IH]; intros s Hd.
  - destruct (decide (k ∈ cellKey <$> [])) as [H|_]; [|done].
    by apply elem_of_nil in H.
  - rewrite !fmap_cons. cbn [run fold_left fst snd].
    change (fold_left step ?es ?s0) with (run s0 es).
    rewrite enter_painting by done. rewrite IH by done. simpl.
    destruct (decide (k ∈ cellKey <$> cells)) as [Hin|Hnin].
    + rewrite decide_True; [done|]. by apply list_elem_of_further.
    + destruct (decide (k = getPixelKey x y)) as [->|Hne].
      * rewrite decide_True by apply list_elem_of_here. apply get_set_eq.
      * rewrite decide_False.
        -- by apply get_set_ne.
        -- intros [?|?]%elem_of_cons; done.
Qed.

Lemma stepIn_same (s : State) (e : Event) : stepIn s s e = step s e.
Proof. destruct e; try reflexivity. Qed.

Lemma runBatches_singletons (events : list Event) (s : State) :
  runBatches s ((λ e, [e]) <$> events) = run s events.
Proof.
  revert s. induction events as [|e events IH]; intros s; [done|].
  rewrite fmap_cons. cbn [runBatches run fold_left batch].
  rewrite stepIn_same. apply IH.
Qed.

Lemma enter_in_render (s cur : State) (x y : nat) (shiftKey : bool) :
  isDrawing s = true →
  stepIn s cur (CellMouseEnter x y shiftKey)
  = addToRecentColors (selectedColor s)
      (setPixels (JSMap.set (getPixelKey x y) (selectedColor s) (pixels s)) cur).
Proof. intros Hd. simpl. by rewrite Hd. Qed.

Lemma batch_moves_recent (s : State) (cells : list (nat * nat))
    (shiftKey : bool) (cur : State) :
  isDrawing s = true →
  recentUpdate (selectedColor s)
    (recentColors
       (fold_left (stepIn s)
                  ((λ c, CellMouseEnter c.1 c.2 shiftKey) <$> cells) cur))
  = recentUpdate (selectedColor s) (recentColors cur).
Proof.
  intros Hd. revert cur. induction cells as [|[x y] cells IH]; intros cur; [done|].
  rewrite fmap_cons. cbn [fold_left fst snd].
  rewrite IH, enter_in_render by done. apply recentUpdate_twice.
Qed.

End Strokes.

(** X20: painting an unpainted cell and then shift-clicking it gives back
    the store as it was, entry for entry and in the same order, so both
    exports are as before the two clicks. *)
Theorem X20_paint_then_erase_restores (s : State) (x y : nat) :
  JSMap.get (getPixelKey x y) (pixels s) = None →
  let s' := step (step s (CellClick x y false)) (CellClick x y true) in
  pixels s' = pixels s ∧
  payload (downloadAsSVG s') = payload (downloadAsSVG s) ∧
  drawCanvas s' = drawCanvas s.
Proof.
  intros Hg. cbn zeta.
  assert (Hp : pixels (step (step s (CellClick x y false)) (CellClick x y true))
               = pixels s).
  { simpl. rewrite set_absent by done.
    assert (Hd : ∀ m, JSMap.delete (getPixelKey x y)
                        (m ++ [(getPixelKey x y, selectedColor s)])
                      = JSMap.delete (getPixelKey x y) m).
    { induction m as [|[k v] m IH]; simpl.
      - by rewrite decide_True.
      - destruct (decide (k = getPixelKey x y)); [done|]. by rewrite IH. }
    rewrite Hd. by apply delete_absent. }
  split_and!; [done | |].
  - change (svgContent (step (step s (CellClick x y false)) (CellClick x y true))
            = svgContent s).
    by rewrite !svgContent_rects, Hp.
  - unfold drawCanvas. by rewrite Hp.
Qed.

Lemma X20_paint_then_erase_restores_witness :
  JSMap.get (getPixelKey 2 2) (pixels painted_00_then_11) = None ∧
  pixels (step (step painted_00_then_11 (CellClick 2 2 false))
               (CellClick 2 2 true))
  = pixels painted_00_then_11.
Proof.
  assert (H : JSMap.get (getPixelKey 2 2) (pixels painted_00_then_11) = None)
    by reflexivity.
  split; [exact H|].
  exact (proj1 (X20_paint_then_erase_restores painted_00_then_11 2 2 H)).
Defined.

(** X21: shift-clicking a cell and then clicking it moves it to the end of
    the store: the other entries keep their order and the cell is drawn last
    by both exports, wherever it stood before. *)
Theorem X21_erase_then_paint_moves_last (s : State) (x y : nat) :
  let s' := step (step s (CellClick x y true)) (CellClick x y false) in
  pixels s'
  = JSMap.delete (getPixelKey x y) (pixels s)
    ++ [(getPixelKey x y, selectedColor s)] ∧
  last (fills (drawCanvas s'))
  = Some (mkFillRect (selectedColor s) (Num (x * 10)) (Num (y * 10)) 10 10).
Proof.
  cbn zeta.
  assert (Hp : pixels (step (step s (CellClick x y true)) (CellClick x y false))
               = JSMap.delete (getPixelKey x y) (pixels s)
                 ++ [(getPixelKey x y, selectedColor s)]).
  { simpl. apply set_absent, get_delete_eq. }
  split; [done|].
  rewrite drawCanvas_fills, Hp, fmap_app.
  change ((λ kv, canvasFill kv.2 kv.1) <$> [(getPixelKey x y, selectedColor s)])
    with [canvasFill (selectedColor s) (getPixelKey x y)].
  by rewrite last_snoc, canvasFill_getPixelKey.
Qed.

(** X22: once a gesture has started (drawing flag set), a sequence of
    mouse-enter events, with or without the shift key, has two outcomes.  When
    each event is handled after the re-render that follows the previous one,
    every entered cell ends up painted with the selected colour and every
    other cell is as it was.  When all of them are handled within one render,
    each handler copies the store of that render, so the store ends up as the
    old store with the last entered cell painted: the cells entered before it
    are not painted by the gesture.  The history records the selected colour
    once in both cases. *)
Theorem X22_drag_between_renders (s : State) (cells : list (nat * nat))
    (shiftKey : bool) (x y : nat) :
  isDrawing s = true →
  let moves := (λ c, CellMouseEnter c.1 c.2 shiftKey) <$> (cells ++ [(x, y)]) in
  ((∀ c, c ∈ cells ++ [(x, y)] →
         JSMap.get (getPixelKey c.1 c.2) (pixels (run s moves))
         = Some (selectedColor s)) ∧
   (∀ x' y', (x', y') ∉ cells ++ [(x, y)] →
         JSMap.get (getPixelKey x' y') (pixels (run s moves))
         = JSMap.get (getPixelKey x' y') (pixels s)) ∧
   runBatches s ((λ e, [e]) <$> moves) = run s moves) ∧
  (pixels (batch s moves)
   = JSMap.set (getPixelKey x y) (selectedColor s) (pixels s) ∧
   (∀ k, k ≠ getPixelKey x y →
         JSMap.get k (pixels (batch s moves)) = JSMap.get k (pixels s)) ∧
   recentColors (batch s moves)
   = recentUpdate (selectedColor s) (recentColors s)).
Proof.
  intros Hd. cbn zeta. split; split_and!.
  - intros c Hc. rewrite drag_get by done. rewrite decide_True; [done|].
    by apply (list_elem_of_fmap_2 cellKey) in Hc.
  - intros x' y' Hc. rewrite drag_get by done. rewrite decide_False; [done|].
    intros Hin. apply Hc.
    change (getPixelKey x' y') with (cellKey (x', y')) in Hin.
    by apply (list_elem_of_fmap_inj cellKey) in Hin.
  - apply runBatches_singletons.
  - unfold batch. rewrite fmap_app, fold_left_app. cbn [fmap list_fmap fold_left].
    by rewrite enter_in_render.
  - intros k Hk. unfold batch.
    rewrite fmap_app, fold_left_app. cbn [fmap list_fmap fold_left].
    rewrite enter_in_render by done. simpl. by apply get_set_ne.
  - unfold batch. rewrite fmap_app, fold_left_app. cbn [fmap list_fmap fold_left].
    rewrite enter_in_render by done.
    apply (batch_moves_recent s cells shiftKey s Hd).
Qed.

Lemma X22_drag_between_renders_witness :
  isDrawing (handleMouseDown init) = true ∧
  pixels (run (handleMouseDown init)
              [CellMouseEnter 0 1 false; CellMouseEnter 0 2 false])
  = [("0-1", "#3b82f6"); ("0-2", "#3b82f6")] ∧
  pixels (batch (handleMouseDown init)
                [CellMouseEnter 0 1 false; CellMouseEnter 0 2 false])
  = [("0-2", "#3b82f6")].
Proof.
  assert (H : isDrawing (handleMouseDown init) = true) by reflexivity.
  split_and!; [exact H | reflexivity |].
  exact (proj1 (proj2
    (X22_drag_between_renders (handleMouseDown init) [(0, 1)] false 0 2 H))).
Defined.
